(** * Marketplace frontend: authentication session, API helper and view routing

    A shallow embedding of [frontend/src/App.js]: the [AuthProvider]
    component (mount, the token effect, [login], [logout]), the [apiCall]
    helper, the two admin settings screens and the view selection done by
    [App] and [Dashboard].

    Conventions.
    - [localStorage] is a finite map from keys to strings; [getItem]
      answers [None] where JavaScript answers [null].
    - JavaScript strings are [string]s.  A character above U+007F that a
      JSON escape produces is kept in UTF-8 style encoded form, which is
      injective and leaves ASCII text untouched; the program compares
      strings only with ASCII literals.
    - A JavaScript number is a binary64.  A finite one is written as the
      decimal [mant * 10 ^ expo] of its exact value (every binary64 has
      one); [binary64] rounds a decimal to the nearest binary64, ties to
      even, and the product [payload.exp * 1000] is rounded by it as the
      engine rounds it.
    - [Date.now()] is an argument [now : Z], in milliseconds.
    - An exception is the [None] of an [option]; [try]/[catch] is a
      [match] on it. *)

From Stdlib Require Import ZArith QArith Ascii String List Lia.
From stdpp Require Import base option gmap strings list fin_maps.

Set Warnings "-register-all".

Local Open Scope string_scope.
Local Open Scope Z_scope.

(** ** JavaScript values *)

(** A finite JSON number, [mant * 10 ^ expo]. *)
Record decnum := Dec { mant : Z; expo : Z }.

(** The result of numeric coercion and arithmetic. *)
Inductive jsnum :=
| NaN
| PosInf
| NegInf
| Fin (d : decnum).

Inductive jsval :=
| JUndefined
| JNull
| JBool (b : bool)
| JNum (d : decnum)
| JStr (s : string)
| JArr (items : list jsval)
| JObj (props : list (string * jsval)).

(** The rational a decimal stands for. *)
Definition Qvalue (d : decnum) : Q :=
  if 0 <=? expo d then inject_Z (mant d * 10 ^ expo d)
  else Qmake (mant d) (Z.to_pos (10 ^ (- expo d))).

(** *** Rounding to binary64

    JavaScript computes in IEEE 754 binary64: 53 significant bits, the
    last place of a finite value between [2 ^ -1074] and [2 ^ 971], round
    to nearest with ties to even, and an infinity from [2 ^ 1024] on. *)

(** [a / b] rounded to the nearest integer, ties to even, for [b > 0]. *)
Definition rne (a b : Z) : Z :=
  let q := a / b in
  let r := a mod b in
  if 2 * r <? b then q
  else if b <? 2 * r then q + 1
  else if Z.even q then q else q + 1.

(** [2 ^ g <= n / d], for [d > 0]. *)
Definition pow2_le (g n d : Z) : bool :=
  if 0 <=? g then d * 2 ^ g <=? n else d <=? n * 2 ^ (- g).

(** The exponent of the last place of a binary64 near [n / d], for
    [n, d > 0]: [e - 52] for the [e] with [2 ^ e <= n / d < 2 ^ (e + 1)],
    and [-1074] for a subnormal.  The bit lengths of [n] and [d] leave two
    candidates for [e], their difference and one less. *)
Definition ulp_exponent (n d : Z) : Z :=
  let g := Z.log2 n - Z.log2 d in
  Z.max ((if pow2_le g n d then g else g - 1) - 52) (-1074).

(** The decimal [d] rounded to binary64: the magnitude [n / dn] of [d]
    becomes [M * 2 ^ E] for the nearest integer [M] to [n / dn / 2 ^ E].
    A decimal that is a binary64 already is returned as it stands, and an
    integral result is written without exponent. *)
Definition binary64 (d : decnum) : jsnum :=
  if mant d =? 0 then Fin d
  else
    let n := if 0 <=? expo d then Z.abs (mant d) * 10 ^ expo d else Z.abs (mant d) in
    let dn := if 0 <=? expo d then 1 else 10 ^ (- expo d) in
    let E := ulp_exponent n dn in
    let M := if 0 <=? E then rne n (dn * 2 ^ E) else rne (n * 2 ^ (- E)) dn in
    let exact := if 0 <=? E then M * 2 ^ E * dn =? n else M * dn =? n * 2 ^ (- E) in
    let signed (x : Z) := if mant d <? 0 then - x else x in
    if (0 <=? E) && (2 ^ 1024 <=? M * 2 ^ E)
    then (if mant d <? 0 then NegInf else PosInf)
    else if exact then Fin d
    else if 0 <=? E then Fin (Dec (signed (M * 2 ^ E)) 0)
    else if M mod 2 ^ (- E) =? 0 then Fin (Dec (signed (M / 2 ^ (- E))) 0)
    else Fin (Dec (signed (M * 5 ^ (- E))) E).

(** [x * k] for an integer literal [k > 0]: the product of two binary64
    is their exact product rounded to binary64. *)
Definition num_mul (x : jsnum) (k : Z) : jsnum :=
  match x with
  | Fin d => binary64 (Dec (mant d * k) (expo d))
  | other => other
  end.

(** [x > n] for an integer [n]; every comparison with [NaN] is false. *)
Definition num_gt (x : jsnum) (n : Z) : bool :=
  match x with
  | NaN => false
  | PosInf => true
  | NegInf => false
  | Fin d =>
      if 0 <=? expo d then n <? mant d * 10 ^ expo d
      else n * 10 ^ (- expo d) <? mant d
  end.

(** ToBoolean. *)
Definition truthy (v : jsval) : bool :=
  match v with
  | JUndefined | JNull => false
  | JBool b => b
  | JNum d => negb (mant d =? 0)
  | JStr s => negb (String.eqb s "")
  | JArr _ | JObj _ => true
  end.

(** ToBoolean of a value that is [null] or a string, such as the [token]
    state and the [token] argument of [apiCall]. *)
Definition truthy_token (t : option string) : bool :=
  match t with
  | None => false
  | Some s => negb (String.eqb s "")
  end.

Fixpoint own_property (k : string) (props : list (string * jsval)) : option jsval :=
  match props with
  | [] => None
  | (k', v) :: rest => if String.eqb k k' then Some v else own_property k rest
  end.

(** [v.k] for a key [k] that no built-in prototype defines (the program
    reads [exp], [user_id], [user_type] and [detail]).  [None] is the
    TypeError of reading a property of [null] or [undefined]. *)
Definition js_get (v : jsval) (k : string) : option jsval :=
  match v with
  | JUndefined | JNull => None
  | JObj props => Some (default JUndefined (own_property k props))
  | _ => Some JUndefined
  end.

(** [v?.k]. *)
Definition js_get_opt (v : jsval) (k : string) : jsval :=
  default JUndefined (js_get v k).

(** [v === 'lit']. *)
Definition strict_eq_str (v : jsval) (lit : string) : bool :=
  match v with
  | JStr s => String.eqb s lit
  | _ => false
  end.

(** [a || b]. *)
Definition js_or (a b : jsval) : jsval := if truthy a then a else b.

(** ** The runtime

    [JSON.parse] and the conversions between numbers and strings belong to
    the JavaScript engine, not to this repository.  The program is modelled
    over any engine; [reference_runtime] below is one. *)
Class JSRuntime := {
  (** [JSON.parse(text)]; [None] is a SyntaxError. *)
  JSON_parse : string -> option jsval;
  (** ToNumber applied to a string. *)
  StringToNumber : string -> jsnum;
  (** ToString applied to a finite number. *)
  NumberToString : decnum -> string
}.

Section Coercions.
Context {rt : JSRuntime}.

(** ToString of a JSON value.  An object answers ["[object Object]"]
    unless an own property shadows [toString] (a JSON value is never
    callable, so the conversion then finds no method: TypeError).  An
    array answers the [join] of its elements. *)
Fixpoint ToString (v : jsval) : option string :=
  match v with
  | JUndefined => Some "undefined"
  | JNull => Some "null"
  | JBool b => Some (if b then "true" else "false")
  | JNum d => Some (NumberToString d)
  | JStr s => Some s
  | JArr items =>
      (fix join (first : bool) (l : list jsval) : option string :=
         match l with
         | [] => Some ""
         | x :: rest =>
             sx ← match x with
                  | JUndefined | JNull => Some ""
                  | _ => ToString x
                  end;
             srest ← join false rest;
             Some ((if first then "" else ",") +:+ sx +:+ srest)
         end) true items
  | JObj props =>
      match own_property "toString" props with
      | Some _ => None
      | None => Some "[object Object]"
      end
  end.

(** ToNumber, as the operator [*] applies it to its operand. *)
Definition ToNumber (v : jsval) : option jsnum :=
  match v with
  | JUndefined => Some NaN
  | JNull => Some (Fin (Dec 0 0))
  | JBool b => Some (Fin (Dec (if b then 1 else 0) 0))
  | JNum d => Some (Fin d)
  | JStr s => Some (StringToNumber s)
  | JArr _ | JObj _ => StringToNumber <$> ToString v
  end.
End Coercions.

(** ** [String.prototype.split] and [atob] *)

(** [s.split(sep)] for a one-character separator. *)
Fixpoint split (sep : ascii) (s : string) : list string :=
  match s with
  | EmptyString => [EmptyString]
  | String c rest =>
      if Ascii.eqb c sep then EmptyString :: split sep rest
      else match split sep rest with
           | seg :: segs => String c seg :: segs
           | [] => [String c EmptyString]
           end
  end.

Definition is_ascii_whitespace (c : ascii) : bool :=
  let n := N_of_ascii c in
  ((n =? 9) || (n =? 10) || (n =? 12) || (n =? 13) || (n =? 32))%N.

(** The value of a character of the base64 alphabet. *)
Definition b64_value (c : ascii) : option N :=
  let n := N_of_ascii c in
  if ((65 <=? n) && (n <=? 90))%N then Some (n - 65)%N
  else if ((97 <=? n) && (n <=? 122))%N then Some (n - 71)%N
  else if ((48 <=? n) && (n <=? 57))%N then Some (n + 4)%N
  else if (n =? 43)%N then Some 62%N
  else if (n =? 47)%N then Some 63%N
  else None.

Definition strip_padding (l : list ascii) : list ascii :=
  match rev l with
  | "="%char :: "="%char :: r => rev r
  | "="%char :: r => rev r
  | _ => l
  end.

Fixpoint b64_bytes (l : list N) : list ascii :=
  match l with
  | a :: b :: c :: d :: rest =>
      let n := (a * 262144 + b * 4096 + c * 64 + d)%N in
      ascii_of_N (n / 65536) :: ascii_of_N ((n / 256) mod 256)
        :: ascii_of_N (n mod 256) :: b64_bytes rest
  | [a; b; c] =>
      let n := ((a * 4096 + b * 64 + c) / 4)%N in
      [ascii_of_N (n / 256); ascii_of_N (n mod 256)]
  | [a; b] => [ascii_of_N ((a * 64 + b) / 16)]
  | _ => []
  end.

(** [atob(data)], the forgiving-base64 decode of the HTML standard; [None]
    is the InvalidCharacterError.  The result is a binary string, one
    character per byte. *)
Definition atob (data : string) : option string :=
  let d := filter (fun c => is_ascii_whitespace c = false) (list_ascii_of_string data) in
  let d := if (length d mod 4 =? 0)%nat then strip_padding d else d in
  if (length d mod 4 =? 1)%nat then None
  else
    sextets ← mapM b64_value d;
    Some (string_of_list_ascii (b64_bytes sextets)).


(** ** [axios] *)

Module Response.
Record t := { status : Z; data : jsval }.
End Response.

(** What [axios] rejects with: [response] is present when the server
    answered with a status outside 2xx, absent when no answer arrived. *)
Record AxiosError := { response : option Response.t; message : string }.

Inductive outcome :=
| Resolved (r : Response.t)
| Rejected (e : AxiosError).

(** A value travelling up a [throw]: a plain JavaScript value or the
    [axios] error object itself. *)
Inductive thrown :=
| ThrownValue (v : jsval)
| ThrownError (e : AxiosError).

Module Config.
Record t := {
  method : string;
  url : string;
  headers : gmap string string;
  data : option jsval
}.
End Config.

(** ** The browser *)

Inductive logarg :=
| LogStr (s : string)
| LogVal (v : jsval)
| LogThrown (x : thrown).

Record Browser := {
  localStorage : gmap string string;
  console : list (list logarg);
  alerts : list string
}.

Definition getItem (k : string) (b : Browser) : option string :=
  localStorage b !! k.

Definition setItem (k v : string) (b : Browser) : Browser :=
  {| localStorage := <[k := v]> (localStorage b);
     console := console b; alerts := alerts b |}.

Definition removeItem (k : string) (b : Browser) : Browser :=
  {| localStorage := delete k (localStorage b);
     console := console b; alerts := alerts b |}.

Definition console_error (args : list logarg) (b : Browser) : Browser :=
  {| localStorage := localStorage b;
     console := console b ++ [args]; alerts := alerts b |}.

Definition alert (msg : string) (b : Browser) : Browser :=
  {| localStorage := localStorage b;
     console := console b; alerts := alerts b ++ [msg] |}.

(** ** [AuthProvider] *)

(** The browser together with the three state variables of
    [AuthProvider]. *)
Record World := {
  browser : Browser;
  user : jsval;
  token : option string;
  loading : bool
}.

Definition setUser (u : jsval) (w : World) : World :=
  {| browser := browser w; user := u; token := token w; loading := loading w |}.

Definition setToken (t : option string) (w : World) : World :=
  {| browser := browser w; user := user w; token := t; loading := loading w |}.

Definition setLoading (l : bool) (w : World) : World :=
  {| browser := browser w; user := user w; token := token w; loading := l |}.

Definition on_browser (f : Browser -> Browser) (w : World) : World :=
  {| browser := f (browser w); user := user w; token := token w;
     loading := loading w |}.

(** The object [{ id: payload.user_id, user_type: payload.user_type }] for
    a payload that is neither [null] nor [undefined]. *)
Definition user_of (p : jsval) : jsval :=
  JObj [("id", js_get_opt p "user_id"); ("user_type", js_get_opt p "user_type")].

(** The [useState] initialisers, run on page load. *)
Definition mount (b : Browser) : World :=
  {| browser := b; user := JNull; token := getItem "token" b; loading := true |}.

(** [login] and [logout] as [AuthProvider] defines them. *)
Definition login (newToken : string) (userData : jsval) (w : World) : World :=
  setUser userData (setToken (Some newToken)
    (on_browser (setItem "token" newToken) w)).

Definition logout (w : World) : World :=
  setUser JNull (setToken None (on_browser (removeItem "token") w)).

Section Program.
Context {rt : JSRuntime}.

(** [JSON.parse(atob(token.split('.')[1]))].  A token without a dot has
    no element 1; [atob] is then handed [undefined], which it reads as
    the text ["undefined"]. *)
Definition decode (t : string) : option jsval :=
  bin ← atob (default "undefined" (split "." t !! 1%nat));
  JSON_parse bin.

(** [payload.exp * 1000 > Date.now()]. *)
Definition unexpired (payload : jsval) (now : Z) : option bool :=
  exp ← js_get payload "exp";
  x ← ToNumber exp;
  Some (num_gt (num_mul x 1000) now).

(** The body of the [try] in the effect. *)
Definition try_block (now : Z) (t : string) (w : World) : option World :=
  payload ← decode t;
  fresh ← unexpired payload now;
  if fresh : bool then
    id ← js_get payload "user_id";
    user_type ← js_get payload "user_type";
    Some (setUser (JObj [("id", id); ("user_type", user_type)]) w)
  else
    Some (setToken None (on_browser (removeItem "token") w)).

(** The [try] block throws when decoding or the expiry test does
    ([try_block_throw]). *)
Definition throws (now : Z) (t : string) : Prop :=
  decode t = None \/ exists p, decode t = Some p /\ unexpired p now = None.

(** One run of the effect registered with [useEffect(..., [token])]. *)
Definition effect (now : Z) (w : World) : World :=
  let w' :=
    match token w with
    | Some t =>
        if truthy_token (Some t) then
          match try_block now t w with
          | Some w1 => w1
          | None =>
              setToken None
                (on_browser (removeItem "token")
                   (on_browser (console_error [LogStr "Invalid token"]) w))
          end
        else w
    | None => w
    end in
  setLoading false w'.

(** React runs the effect after the first render and after every render
    in which [token] differs from its value at the previous run.
    [deps] is that previous value, [None] before the first run. *)
Fixpoint run_effects (fuel : nat) (now : Z) (deps : option (option string))
    (w : World) : option World :=
  if decide (deps = Some (token w)) then Some w
  else match fuel with
       | O => None
       | S n => run_effects n now (Some (token w)) (effect now w)
       end.

(** The same loop unrolled: two runs always suffice ([run_effects_settle]).
    A second run finds no token and does not read the clock
    ([effect_clock_unread]), so one reading serves both. *)
Definition settle (now : Z) (deps : option (option string)) (w : World) : World :=
  if decide (deps = Some (token w)) then w
  else
    let w1 := effect now w in
    if decide (token w1 = token w) then w1 else effect now w1.

(** Page load: mount, then effects until quiescent. *)
Definition restore (now : Z) (b : Browser) : World :=
  settle now None (mount b).

(** A handler called in a world whose effects are quiescent, followed by
    the effects its state updates trigger. *)
Definition after (now : Z) (handler : World -> World) (w : World) : World :=
  settle now (Some (token w)) (handler w).
End Program.

(** ** View selection *)

Inductive View :=
| ViewLoading
| ViewPublicStore
| ViewAdminPanel (tokenProp : option string)
| ViewAdminConfigPanel (tokenProp : option string)
| ViewDashboard.

(** [Dashboard]: the bare configuration panel for an admin, the generic
    dashboard otherwise. *)
Definition Dashboard (w : World) : View :=
  if strict_eq_str (js_get_opt (user w) "user_type") "admin"
  then ViewAdminConfigPanel (token w)
  else ViewDashboard.

Definition renderAdminContent (w : World) : View :=
  let token := getItem "token" (browser w) in
  if strict_eq_str (js_get_opt (user w) "user_type") "admin"
  then ViewAdminPanel token
  else Dashboard w.

Definition App (w : World) : View :=
  if loading w then ViewLoading
  else if truthy (user w) then renderAdminContent w
  else ViewPublicStore.

(** ** [apiCall] *)

Section Api.
(** [process.env.REACT_APP_BACKEND_URL]; absent, the template literal
    below prints it as ["undefined"]. *)
Variable BACKEND_URL : option string.

Definition API : string := default "undefined" BACKEND_URL +:+ "/api".

(** The [config] object that [apiCall] hands to [axios]. *)
Definition request_config (endpoint method : string) (data : jsval)
    (token : option string) : Config.t :=
  let headers : gmap string string := ∅ in
  let headers :=
    match token with
    | Some t =>
        if truthy_token (Some t)
        then <["Authorization" := "Bearer " +:+ t]> headers
        else headers
    | None => headers
    end in
  if truthy data then
    {| Config.method := method; Config.url := API +:+ endpoint;
       Config.headers := <["Content-Type" := "application/json"]> headers;
       Config.data := Some data |}
  else
    {| Config.method := method; Config.url := API +:+ endpoint;
       Config.headers := headers; Config.data := None |}.

(** [error.response?.data]. *)
Definition response_data (e : AxiosError) : jsval :=
  match response e with
  | Some r => Response.data r
  | None => JUndefined
  end.

(** [error.response?.data || error]. *)
Definition rethrown (e : AxiosError) : thrown :=
  if truthy (response_data e) then ThrownValue (response_data e)
  else ThrownError e.

(** [apiCall], with the answer of the network to the request as the
    argument [axios].  The result is the returned [response.data] or the
    value thrown. *)
Definition apiCall (endpoint method : string) (data : jsval)
    (token : option string) (axios : Config.t -> outcome) (b : Browser)
    : Browser * (jsval + thrown) :=
  match axios (request_config endpoint method data token) with
  | Resolved r => (b, inl (Response.data r))
  | Rejected e =>
      (console_error
         [LogStr "API Error:"; LogVal (js_or (response_data e) (JStr (message e)))] b,
       inr (rethrown e))
  end.

(** ** The admin settings screens

    [renderMarketingTab] and [renderSystemTab] are the same code up to
    the endpoint and the texts; [tab] selects them.  Their handlers are
    embedded as they are written; how [AdminConfigPanel] comes to render a
    tab is modelled with [AdminConfigPanel] below. *)
Inductive tab := Marketing | System.

Definition settings_endpoint (t : tab) : string :=
  match t with
  | Marketing => "/admin/settings/marketing"
  | System => "/admin/settings/system"
  end.

Definition saved_text (t : tab) : string :=
  match t with
  | Marketing => "Marketing settings saved successfully!"
  | System => "System settings saved successfully!"
  end.

Definition save_error_label (t : tab) : string :=
  match t with
  | Marketing => "Error saving marketing settings:"
  | System => "Error saving system settings:"
  end.

(** The state variables of one settings screen: the edit buffer
    ([marketingSettings] or [systemSettings]) and the two flags. *)
Record Screen := {
  settings : jsval;
  screen_loading : bool;
  saving : bool
}.

Definition setSaving (v : bool) (s : Screen) : Screen :=
  {| settings := settings s; screen_loading := screen_loading s; saving := v |}.

(** The save button carries [disabled={saving}]. *)
Definition save_enabled (s : Screen) : bool := negb (saving s).

(** What the screen holds while the request is in flight. *)
Definition save_in_flight (s : Screen) : Screen := setSaving true s.

(** [handleSaveSettings], from the click to the end of [finally]. *)
Definition handleSaveSettings (t : tab) (token : option string)
    (axios : Config.t -> outcome) (s : Screen) (b : Browser) : Screen * Browser :=
  let s1 := setSaving true s in
  let '(b1, result) :=
    apiCall (settings_endpoint t) "POST" (settings s1) token axios b in
  let b2 :=
    match result with
    | inl _ => alert (saved_text t) b1
    | inr error =>
        alert "Error saving settings"
          (console_error [LogStr (save_error_label t); LogThrown error] b1)
    end in
  (setSaving false s1, b2).
End Api.

(** ** A reference runtime

    An engine to run the model on concrete credentials: a parser for the
    JSON grammar of ECMA-404 and the two conversions of ECMA-262.  A
    numeric literal is rounded to the binary64 it denotes.  No theorem
    about the program depends on it; the theorems hold for every
    [JSRuntime]. *)
Module Reference.

(** The binary64 that the literal [d] denotes.  A literal beyond the
    finite range denotes an infinity, which [JNum] does not hold: it is
    kept as written, and [binary64] makes the infinity of it wherever the
    program computes with it. *)
Definition literal (d : decnum) : decnum :=
  match binary64 d with
  | Fin r => r
  | _ => d
  end.

Definition is_json_ws (c : ascii) : bool :=
  let n := N_of_ascii c in
  ((n =? 32) || (n =? 9) || (n =? 10) || (n =? 13))%N.

Fixpoint skip_ws (s : string) : string :=
  match s with
  | String c r => if is_json_ws c then skip_ws r else s
  | EmptyString => s
  end.

Fixpoint strip_prefix (p s : string) : option string :=
  match p, s with
  | EmptyString, _ => Some s
  | String a p', String b s' => if Ascii.eqb a b then strip_prefix p' s' else None
  | _, _ => None
  end.

Definition digit_value (c : ascii) : option Z :=
  let n := Z.of_N (N_of_ascii c) in
  if (48 <=? n) && (n <=? 57) then Some (n - 48) else None.

Definition hex_value (c : ascii) : option Z :=
  let n := Z.of_N (N_of_ascii c) in
  if (48 <=? n) && (n <=? 57) then Some (n - 48)
  else if (65 <=? n) && (n <=? 70) then Some (n - 55)
  else if (97 <=? n) && (n <=? 102) then Some (n - 87)
  else None.

(** Reads a run of digits in [base], continuing the value [acc]: the
    value, the number of digits read and the rest. *)
Fixpoint read_digits (base acc count : Z) (s : string) : Z * Z * string :=
  match s with
  | String c r =>
      match hex_value c with
      | Some d =>
          if d <? base then read_digits base (acc * base + d) (count + 1) r
          else (acc, count, s)
      | None => (acc, count, s)
      end
  | EmptyString => (acc, count, s)
  end.

Definition read_exponent (s : string) : option (Z * string) :=
  match s with
  | String c r =>
      if Ascii.eqb c "e" || Ascii.eqb c "E" then
        let '(sign, r1) :=
          match r with
          | String x r' =>
              if Ascii.eqb x "+" then (1, r')
              else if Ascii.eqb x "-" then (-1, r')
              else (1, r)
          | EmptyString => (1, r)
          end in
        let '(v, n, rest) := read_digits 10 0 0 r1 in
        if n =? 0 then None else Some (sign * v, rest)
      else Some (0, s)
  | EmptyString => Some (0, s)
  end.

(** A JSON number: an optional minus sign, then a single zero or a run
    of digits that does not start with zero, then optionally a point
    and one or more digits, then optionally an exponent.  Its value is
    the binary64 nearest to the digits. *)
Definition parse_number (s : string) : option (decnum * string) :=
  let '(neg, s1) :=
    match s with
    | String c r => if Ascii.eqb c "-" then (true, r) else (false, s)
    | EmptyString => (false, s)
    end in
  '(i, s2) ← match s1 with
             | String c r =>
                 if Ascii.eqb c "0" then Some (0, r)
                 else
                   let '(v, n, rest) := read_digits 10 0 0 s1 in
                   if n =? 0 then None else Some (v, rest)
             | EmptyString => None
             end;
  '(m, nfrac, s3) ← match s2 with
                    | String c r =>
                        if Ascii.eqb c "." then
                          let '(v, n, rest) := read_digits 10 i 0 r in
                          if n =? 0 then None else Some (v, n, rest)
                        else Some (i, 0, s2)
                    | EmptyString => Some (i, 0, s2)
                    end;
  '(e, s4) ← read_exponent s3;
  Some (literal (Dec (if neg : bool then - m else m) (e - nfrac)), s4).

(** A code unit in the encoded form used for strings. *)
Definition encode_unit (u : Z) : string :=
  let byte (n : Z) := ascii_of_N (Z.to_N n) in
  if u <? 128 then String (byte u) ""
  else if u <? 2048 then
    String (byte (192 + u / 64)) (String (byte (128 + u mod 64)) "")
  else
    String (byte (224 + u / 4096))
      (String (byte (128 + (u / 64) mod 64)) (String (byte (128 + u mod 64)) "")).

Definition dquote : ascii := ascii_of_N 34.

Definition simple_escape (c : ascii) : option ascii :=
  if Ascii.eqb c dquote then Some dquote
  else if Ascii.eqb c "\" then Some "\"%char
  else if Ascii.eqb c "/" then Some "/"%char
  else if Ascii.eqb c "b" then Some (ascii_of_N 8)
  else if Ascii.eqb c "f" then Some (ascii_of_N 12)
  else if Ascii.eqb c "n" then Some (ascii_of_N 10)
  else if Ascii.eqb c "r" then Some (ascii_of_N 13)
  else if Ascii.eqb c "t" then Some (ascii_of_N 9)
  else None.

(** The characters of a JSON string, from just after the opening quote. *)
Fixpoint parse_string (s : string) : option (string * string) :=
  match s with
  | EmptyString => None
  | String c r =>
      if Ascii.eqb c dquote then Some ("", r)
      else if Ascii.eqb c "\" then
        match r with
        | String e r' =>
            if Ascii.eqb e "u" then
              match r' with
              | String h1 (String h2 (String h3 (String h4 r''))) =>
                  a ← hex_value h1; b ← hex_value h2;
                  c ← hex_value h3; d ← hex_value h4;
                  '(str, rest) ← parse_string r'';
                  Some (encode_unit (((a * 16 + b) * 16 + c) * 16 + d) +:+ str, rest)
              | _ => None
              end
            else
              ch ← simple_escape e;
              '(str, rest) ← parse_string r';
              Some (String ch str, rest)
        | EmptyString => None
        end
      else if (N_of_ascii c <? 32)%N then None
      else
        '(str, rest) ← parse_string r;
        Some (encode_unit (Z.of_N (N_of_ascii c)) +:+ str, rest)
  end.

(** Defines [k] in an object under construction: a repeated key keeps
    its place and takes the later value. *)
Fixpoint set_property (k : string) (v : jsval) (props : list (string * jsval))
    : list (string * jsval) :=
  match props with
  | [] => [(k, v)]
  | (k', v') :: rest =>
      if String.eqb k k' then (k, v) :: rest
      else (k', v') :: set_property k v rest
  end.

Fixpoint parse_value (fuel : nat) (s : string) : option (jsval * string) :=
  match fuel with
  | O => None
  | S n =>
      match skip_ws s with
      | EmptyString => None
      | String c r as s' =>
          if Ascii.eqb c "{" then
            match skip_ws r with
            | String c' r' as body =>
                if Ascii.eqb c' "}" then Some (JObj [], r')
                else '(props, rest) ← parse_members n [] body; Some (JObj props, rest)
            | EmptyString => None
            end
          else if Ascii.eqb c "[" then
            match skip_ws r with
            | String c' r' as body =>
                if Ascii.eqb c' "]" then Some (JArr [], r')
                else '(items, rest) ← parse_elements n body; Some (JArr items, rest)
            | EmptyString => None
            end
          else if Ascii.eqb c dquote then
            '(str, rest) ← parse_string r; Some (JStr str, rest)
          else if Ascii.eqb c "t" then
            rest ← strip_prefix "true" s'; Some (JBool true, rest)
          else if Ascii.eqb c "f" then
            rest ← strip_prefix "false" s'; Some (JBool false, rest)
          else if Ascii.eqb c "n" then
            rest ← strip_prefix "null" s'; Some (JNull, rest)
          else
            '(d, rest) ← parse_number s'; Some (JNum d, rest)
      end
  end
with parse_elements (fuel : nat) (s : string) : option (list jsval * string) :=
  match fuel with
  | O => None
  | S n =>
      '(v, r) ← parse_value n s;
      match skip_ws r with
      | String c r' =>
          if Ascii.eqb c "," then
            '(vs, rest) ← parse_elements n r'; Some (v :: vs, rest)
          else if Ascii.eqb c "]" then Some ([v], r')
          else None
      | EmptyString => None
      end
  end
with parse_members (fuel : nat) (acc : list (string * jsval)) (s : string)
    : option (list (string * jsval) * string) :=
  match fuel with
  | O => None
  | S n =>
      match skip_ws s with
      | String q r =>
          if Ascii.eqb q dquote then
            '(k, r1) ← parse_string r;
            match skip_ws r1 with
            | String colon r2 =>
                if Ascii.eqb colon ":" then
                  '(v, r3) ← parse_value n r2;
                  let acc' := set_property k v acc in
                  match skip_ws r3 with
                  | String c r4 =>
                      if Ascii.eqb c "," then parse_members n acc' r4
                      else if Ascii.eqb c "}" then Some (acc', r4)
                      else None
                  | EmptyString => None
                  end
                else None
            | EmptyString => None
            end
          else None
      | EmptyString => None
      end
  end.

(** Every nested call follows the consumption of a character or is
    followed by one, so twice the length of the text is fuel enough. *)
Definition parse (text : string) : option jsval :=
  '(v, rest) ← parse_value (2 * String.length text + 2) text;
  match skip_ws rest with
  | EmptyString => Some v
  | String _ _ => None
  end.

(** The code units of a string in encoded form. *)
Fixpoint units_of (s : string) : list Z :=
  match s with
  | EmptyString => []
  | String a r =>
      let x := Z.of_N (N_of_ascii a) in
      if (192 <=? x) && (x <? 224) then
        match r with
        | String b r' => (x - 192) * 64 + (Z.of_N (N_of_ascii b) - 128) :: units_of r'
        | EmptyString => [x]
        end
      else if 224 <=? x then
        match r with
        | String b (String c r') =>
            (x - 224) * 4096 + (Z.of_N (N_of_ascii b) - 128) * 64
              + (Z.of_N (N_of_ascii c) - 128) :: units_of r'
        | _ => [x]
        end
      else x :: units_of r
  end.

(** StrWhiteSpaceChar: white space and line terminators. *)
Definition is_str_ws (u : Z) : bool :=
  ((9 <=? u) && (u <=? 13)) || (u =? 32) || (u =? 160) || (u =? 5760)
  || ((8192 <=? u) && (u <=? 8202)) || (u =? 8232) || (u =? 8233)
  || (u =? 8239) || (u =? 8287) || (u =? 12288) || (u =? 65279).

Fixpoint drop_ws (l : list Z) : list Z :=
  match l with
  | u :: r => if is_str_ws u then drop_ws r else l
  | [] => []
  end.

Definition trim (l : list Z) : list Z := rev (drop_ws (rev (drop_ws l))).

Definition ascii_text (l : list Z) : option string :=
  string_of_list_ascii <$>
    mapM (fun u => if u <? 128 then Some (ascii_of_N (Z.to_N u)) else None) l.

(** An integer literal in [base] that covers the whole of [s]. *)
Definition radix_literal (base : Z) (s : string) : jsnum :=
  let '(v, n, rest) := read_digits base 0 0 s in
  match rest with
  | EmptyString => if n =? 0 then NaN else binary64 (Dec v 0)
  | String _ _ => NaN
  end.

(** StrUnsignedDecimalLiteral, covering the whole of [s]. *)
Definition unsigned_decimal (s : string) : option jsnum :=
  if String.eqb s "Infinity" then Some PosInf
  else
    let '(i, ni, r1) := read_digits 10 0 0 s in
    let '(m, nf, r2) :=
      match r1 with
      | String c r => if Ascii.eqb c "." then read_digits 10 i 0 r else (i, 0, r1)
      | EmptyString => (i, 0, r1)
      end in
    if ni + nf =? 0 then None
    else
      match read_exponent r2 with
      | Some (e, EmptyString) => Some (binary64 (Dec m (e - nf)))
      | _ => None
      end.

Definition negate (x : jsnum) : jsnum :=
  match x with
  | NaN => NaN
  | PosInf => NegInf
  | NegInf => PosInf
  | Fin d => Fin (Dec (- mant d) (expo d))
  end.

(** StringToNumber. *)
Definition string_to_number (s : string) : jsnum :=
  match ascii_text (trim (units_of s)) with
  | None => NaN
  | Some EmptyString => Fin (Dec 0 0)
  | Some (String c r as t) =>
      match r with
      | String x digits =>
          if Ascii.eqb c "0" && (Ascii.eqb x "x" || Ascii.eqb x "X")
          then radix_literal 16 digits
          else if Ascii.eqb c "0" && (Ascii.eqb x "o" || Ascii.eqb x "O")
          then radix_literal 8 digits
          else if Ascii.eqb c "0" && (Ascii.eqb x "b" || Ascii.eqb x "B")
          then radix_literal 2 digits
          else if Ascii.eqb c "+" then default NaN (unsigned_decimal r)
          else if Ascii.eqb c "-" then negate (default NaN (unsigned_decimal r))
          else default NaN (unsigned_decimal t)
      | EmptyString => default NaN (unsigned_decimal t)
      end
  end.

Fixpoint show_digits (fuel : nat) (n : Z) (acc : string) : string :=
  match fuel with
  | O => acc
  | S f =>
      let acc' := String (ascii_of_N (Z.to_N (48 + n mod 10))) acc in
      if n <? 10 then acc' else show_digits f (n / 10) acc'
  end.

(** The decimal digits of a natural number. *)
Definition digits_of (n : Z) : string :=
  show_digits (S (Z.to_nat (Z.log2 n))) n "".

Definition zeros (n : Z) : string :=
  string_of_list_ascii (repeat "0"%char (Z.to_nat n)).

Fixpoint drop_zeros (l : list ascii) : list ascii * Z :=
  match l with
  | c :: r =>
      if Ascii.eqb c "0" then let '(l', z) := drop_zeros r in (l', z + 1)
      else (l, 0)
  | [] => ([], 0)
  end.

(** Number::toString in radix 10 on the digits of the decimal.  It writes
    every digit of the value, where an engine stops at the shortest digits
    that [StringToNumber] reads back as the same binary64; both read back
    as the same number. *)
Definition number_to_string (d : decnum) : string :=
  if mant d =? 0 then "0"
  else
    let sign := if mant d <? 0 then "-" else "" in
    let '(rdigits, z) := drop_zeros (rev (list_ascii_of_string (digits_of (Z.abs (mant d))))) in
    let s := string_of_list_ascii (rev rdigits) in
    let k := Z.of_nat (String.length s) in
    let n := k + expo d + z in
    let exponent :=
      (if 0 <=? n - 1 then "e+" else "e-") +:+ digits_of (Z.abs (n - 1)) in
    sign +:+
    (if (k <=? n) && (n <=? 21) then s +:+ zeros (n - k)
     else if (0 <? n) && (n <=? 21) then
       substring 0 (Z.to_nat n) s +:+ "." +:+ substring (Z.to_nat n) (Z.to_nat (k - n)) s
     else if (-6 <? n) && (n <=? 0) then "0." +:+ zeros (- n) +:+ s
     else if k =? 1 then s +:+ exponent
     else substring 0 1 s +:+ "." +:+ substring 1 (Z.to_nat (k - 1)) s +:+ exponent).

#[global] Instance runtime : JSRuntime := {
  JSON_parse := parse;
  StringToNumber := string_to_number;
  NumberToString := number_to_string
}.
End Reference.

(** ** The session invariant and sample data *)

(** Once the first check has run ([loading] is false), a user is present
    exactly when a credential is held and persisted.  Before that no check
    has taken place, so no credential counts as checked. *)
Definition session_invariant (w : World) : Prop :=
  loading w = false ->
  (truthy (user w) = true <->
   truthy_token (token w) = true /\ getItem "token" (browser w) = token w).

Definition empty_browser : Browser :=
  {| localStorage := ∅; console := []; alerts := [] |}.

(** A browser whose only stored item is the credential [t]. *)
Definition browser_with (t : string) : Browser :=
  setItem "token" t empty_browser.

(** 2023-11-14T22:13:20Z in milliseconds. *)
Definition sample_clock : Z := 1700000000000.

(** Payload: user_id u-1, user_type admin, exp 1700003600 (an hour after
    [sample_clock]). *)
Definition admin_token : string :=
  "eyJhbGciOiJIUzI1NiIsInR5cCI6IkpXVCJ9.eyJ1c2VyX2lkIjoidS0xIiwidXNlcl90eXBlIjoiYWRtaW4iLCJleHAiOjE3MDAwMDM2MDB9.c2ln".

(** Payload: user_id u-2, user_type buyer, exp 1700003600. *)
Definition buyer_token : string :=
  "eyJhbGciOiJIUzI1NiIsInR5cCI6IkpXVCJ9.eyJ1c2VyX2lkIjoidS0yIiwidXNlcl90eXBlIjoiYnV5ZXIiLCJleHAiOjE3MDAwMDM2MDB9.c2ln".

(** Payload: user_id u-1, user_type admin, exp 1700000000 (the very
    second of [sample_clock]). *)
Definition boundary_token : string :=
  "eyJhbGciOiJIUzI1NiIsInR5cCI6IkpXVCJ9.eyJ1c2VyX2lkIjoidS0xIiwidXNlcl90eXBlIjoiYWRtaW4iLCJleHAiOjE3MDAwMDAwMDB9.c2ln".

(** The payload of [admin_token] under another header and signature. *)
Definition resigned_admin_token : string :=
  "e30.eyJ1c2VyX2lkIjoidS0xIiwidXNlcl90eXBlIjoiYWRtaW4iLCJleHAiOjE3MDAwMDM2MDB9.b3RoZXI".

Definition admin_user : jsval :=
  JObj [("id", JStr "u-1"); ("user_type", JStr "admin")].

Definition admin_claims : jsval :=
  JObj [("user_id", JStr "u-1"); ("user_type", JStr "admin");
        ("exp", JNum (Dec 1700003600 0))].

Definition boundary_claims : jsval :=
  JObj [("user_id", JStr "u-1"); ("user_type", JStr "admin");
        ("exp", JNum (Dec 1700000000 0))].

(** The binary64 1700003600.0230000019073486328125, which is
    [7130331899590869 * 2 ^ -22]. *)
Definition rounding_exp : decnum := Dec 17000036000230000019073486328125 (-22).

(** 23 milliseconds after the second 1700003600. *)
Definition rounding_clock : Z := 1700003600023.

(** Payload: user_id u-1, user_type admin, exp the digits of
    [rounding_exp]. *)
Definition rounding_token : string :=
  "eyJhbGciOiJIUzI1NiIsInR5cCI6IkpXVCJ9.eyJ1c2VyX2lkIjoidS0xIiwidXNlcl90eXBlIjoiYWRtaW4iLCJleHAiOjE3MDAwMDM2MDAuMDIzMDAwMDAxOTA3MzQ4NjMyODEyNX0=.c2ln".

Definition rounding_claims : jsval :=
  JObj [("user_id", JStr "u-1"); ("user_type", JStr "admin");
        ("exp", JNum rounding_exp)].

(** The error of [axios] for a server that refuses the settings with the
    given status and a message in the body. *)
Definition smtp_error (status : Z) : AxiosError :=
  {| response := Some {| Response.status := status;
                         Response.data := JObj [("detail", JStr "Invalid SMTP key")] |};
     message := "Request failed with status code "
                +:+ Reference.number_to_string (Dec status 0) |}.

(** No answer at all. *)
Definition network_error : AxiosError :=
  {| response := None; message := "Network Error" |}.

Definition sample_screen : Screen :=
  {| settings := JObj [("sendgrid_api_key", JStr "SG.wrong")];
     screen_loading := false; saving := false |}.

(** ** The settings screens: loading, editing, rendering *)

Definition setSettings (v : jsval) (s : Screen) : Screen :=
  {| settings := v; screen_loading := screen_loading s; saving := saving s |}.

Definition setScreenLoading (l : bool) (s : Screen) : Screen :=
  {| settings := settings s; screen_loading := l; saving := saving s |}.

(** What a settings tab starts with: [useState({})], [useState(true)],
    [useState(false)]. *)
Definition initial_screen : Screen :=
  {| settings := JObj []; screen_loading := true; saving := false |}.

Definition fetch_error_label (t : tab) : string :=
  match t with
  | Marketing => "Error fetching marketing settings:"
  | System => "Error fetching system settings:"
  end.

(** The keys that the inputs of a tab read and edit. *)
Definition tab_fields (t : tab) : list string :=
  match t with
  | Marketing => ["sendgrid_api_key"; "sendgrid_from_email"]
  | System => ["site_name"; "admin_email"]
  end.

(** The property key of an array or string index. *)
Definition index_key (i : nat) : string := Reference.digits_of (Z.of_nat i).

(** The own enumerable properties that [{...v}] copies: those of an
    object, the elements of an array and the code units of a string under
    their indices, and none of any other value. *)
Definition spread (v : jsval) : list (string * jsval) :=
  match v with
  | JObj props => props
  | JArr items => imap (fun i x => (index_key i, x)) items
  | JStr s =>
      imap (fun i u => (index_key i, JStr (Reference.encode_unit u)))
        (Reference.units_of s)
  | _ => []
  end.

(** [handleInputChange]: [prev => ({ ...prev, [field]: value })].  A key
    that is present keeps its place and takes the new value; a new key
    goes to the end. *)
Definition handleInputChange (field value : string) (s : Screen) : Screen :=
  setSettings (JObj (Reference.set_property field (JStr value) (spread (settings s)))) s.

(** [settings.key || ''], the [value] of an input; [None] is the
    TypeError of reading a property of [null] or [undefined]. *)
Definition field_value (key : string) (s : Screen) : option jsval :=
  v ← js_get (settings s) key;
  Some (js_or v (JStr "")).

Inductive ScreenView :=
| ScreenSpinner
| ScreenForm (values : list jsval) (save_disabled : bool).

(** What a tab renders: the spinner while loading, else the inputs with
    their values and the save button. *)
Definition render_tab (t : tab) (s : Screen) : option ScreenView :=
  if screen_loading s then Some ScreenSpinner
  else
    values ← mapM (fun key => field_value key s) (tab_fields t);
    Some (ScreenForm values (saving s)).

Section Fetch.
Variable BACKEND_URL : option string.

(** [fetchMarketingSettings] and [fetchSystemSettings], run once when the
    tab mounts. *)
Definition fetchSettings (t : tab) (token : option string)
    (axios : Config.t -> outcome) (s : Screen) (b : Browser) : Screen * Browser :=
  let '(b1, result) :=
    apiCall BACKEND_URL (settings_endpoint t) "GET" JNull token axios b in
  let '(s1, b2) :=
    match result with
    | inl response => (setSettings response s, b1)
    | inr error =>
        (s, console_error [LogStr (fetch_error_label t); LogThrown error] b1)
    end in
  (setScreenLoading false s1, b2).
End Fetch.

(** ** [AdminConfigPanel] *)

(** The ids of [adminTiles], in order. *)
Definition adminTiles : list string :=
  ["ai"; "payments"; "commission"; "shipping"; "marketing"; "erp"; "system"].

(** The [currentPage] state starts as ['main']. *)
Definition initial_page : string := "main".

Definition handleTileClick (tileId : string) (currentPage : string) : string :=
  tileId.

Definition handleBackToMain (currentPage : string) : string := "main".

Inductive Page :=
| PageTab (t : tab)
| PageTiles.

(** The page that [currentPage] selects: a tab with its back button for
    ['marketing'] and ['system'], the grid of tiles otherwise. *)
Definition selected_page (currentPage : string) : Page :=
  if String.eqb currentPage "marketing" then PageTab Marketing
  else if String.eqb currentPage "system" then PageTab System
  else PageTiles.

(** The hooks that one render of [AdminConfigPanel] calls: its own two
    [useState], and, since [renderMarketingTab] and [renderSystemTab] are
    plain functions called during that render, the three [useState] and
    the [useEffect] of a tab when [currentPage] selects one. *)
Definition hooks_called (currentPage : string) : nat :=
  match selected_page currentPage with
  | PageTab _ => 6
  | PageTiles => 2
  end.

(** [AdminConfigPanel] rendered at [currentPage], after a render at
    [previous].  React requires of a component the same hooks in every
    render: it throws "Rendered more hooks than during the previous
    render" when there are more, and "Rendered fewer hooks than expected"
    when there are fewer.  [None] is that error. *)
Definition AdminConfigPanel (previous currentPage : string) : option Page :=
  if Nat.eqb (hooks_called previous) (hooks_called currentPage)
  then Some (selected_page currentPage)
  else None.

(** ** [LoginModal] inside [PublicStore] *)

Module LoginModal.
Record state := {
  email : string;
  password : string;
  error : jsval;
  loading : bool
}.

(** [useState({ email: '', password: '' })], [useState('')],
    [useState(false)]. *)
Definition initial : state :=
  {| email := ""; password := ""; error := JStr ""; loading := false |}.

(** The [credentials] object sent as the body. *)
Definition credentials (s : state) : jsval :=
  JObj [("email", JStr (email s)); ("password", JStr (password s))].

(** What [handleSubmit] leaves: the page reloaded by [onLogin], or the
    state of the modal and the browser, with the modal to be rendered
    again. *)
Inductive result :=
| Reloaded (w : World)
| Stayed (s : state) (b : Browser).

(** [error.detail] of what the [catch] receives: a thrown response body
    (truthy, so the read succeeds) may have one, an error object has
    none. *)
Definition detail (x : thrown) : jsval :=
  match x with
  | ThrownValue v => js_get_opt v "detail"
  | ThrownError _ => JUndefined
  end.

Definition failed (message : jsval) (s : state) : state :=
  {| email := email s; password := password s; error := message;
     loading := false |}.

(** Whether React takes [v] as a child.  A string or a number is text; a
    boolean, [null] and [undefined] render nothing; an array renders its
    elements; an object that is not a React element is refused with
    "Objects are not valid as a React child", and a value from JSON never
    is an element. *)
Fixpoint valid_child (v : jsval) : bool :=
  match v with
  | JObj _ => false
  | JArr items =>
      (fix all (l : list jsval) : bool :=
         match l with
         | [] => true
         | x :: rest => valid_child x && all rest
         end) items
  | _ => true
  end.

Inductive error_view :=
| NoLine
| Line (child : jsval).

(** [{error && <div ...>{error}</div>}]: no line for a falsy [error], a
    line with [error] as its child otherwise.  [None]: the render throws,
    and with no error boundary in the program React unmounts the page. *)
Definition error_line (s : state) : option error_view :=
  if truthy (error s) then
    if valid_child (error s) then Some (Line (error s)) else None
  else Some NoLine.

Definition page_browser (r : result) : Browser :=
  match r with
  | Reloaded w => browser w
  | Stayed _ b => b
  end.
End LoginModal.

Section Login.
Context {rt : JSRuntime}.
Variable BACKEND_URL : option string.

(** [handleSubmit] of [LoginModal] with the [onLogin] that [PublicStore]
    passes, which ignores its arguments and calls
    [window.location.reload()]: the page loads anew at time [now] on the
    same [localStorage].  Reading [response.access_token] of a [null] or
    [undefined] response is a TypeError, caught like a rejection; a
    TypeError has no [detail]. *)
Definition handleSubmit (now : Z) (axios : Config.t -> outcome)
    (s : LoginModal.state) (b : Browser) : LoginModal.result :=
  let '(b1, result) :=
    apiCall BACKEND_URL "/auth/login" "POST" (LoginModal.credentials s) None axios b in
  match result with
  | inl response =>
      match js_get response "access_token", js_get response "user" with
      | Some _, Some _ => LoginModal.Reloaded (restore now b1)
      | _, _ => LoginModal.Stayed (LoginModal.failed (JStr "Login failed") s) b1
      end
  | inr x =>
      LoginModal.Stayed
        (LoginModal.failed (js_or (LoginModal.detail x) (JStr "Login failed")) s) b1
  end.

(** The worlds a session passes through: page loads, logouts, and logins
    with a new credential that the effect accepts. *)
Inductive reachable : World -> Prop :=
| reach_load (now : Z) (b : Browser) : reachable (restore now b)
| reach_logout (now : Z) (w : World) :
    reachable w -> reachable (after now logout w)
| reach_login (now : Z) (c : string) (u p : jsval) (w : World) :
    reachable w -> token w <> Some c ->
    decode c = Some p -> unexpired p now = Some true ->
    reachable (after now (login c u) w).
End Login.

(** Payload: user_id u-1, user_type admin, and no exp. *)
Definition no_exp_token : string :=
  "eyJhbGciOiJIUzI1NiIsInR5cCI6IkpXVCJ9.eyJ1c2VyX2lkIjoidS0xIiwidXNlcl90eXBlIjoiYWRtaW4ifQ==.c2ln".

(** A credential as JWT libraries write it, in base64url: its payload
    (user_id ??>, user_type admin, exp 1700003600) holds the character
    [-] where base64 has [+]. *)
Definition base64url_token : string :=
  "eyJhbGciOiJIUzI1NiIsInR5cCI6IkpXVCJ9.eyJ1c2VyX2lkIjoiPz8-IiwidXNlcl90eXBlIjoiYWRtaW4iLCJleHAiOjE3MDAwMDM2MDB9.c2ln".

(** The error of [axios] for a refused sign-in. *)
Definition login_refused : AxiosError :=
  {| response := Some {| Response.status := 401;
                         Response.data :=
                           JObj [("detail", JStr "Incorrect email or password")] |};
     message := "Request failed with status code 401" |}.

(** The error of [axios] for a body that the server does not validate:
    the [detail] is a list of objects. *)
Definition login_unprocessable : AxiosError :=
  {| response :=
       Some {| Response.status := 422;
               Response.data :=
                 JObj [("detail",
                        JArr [JObj [("loc", JArr [JStr "body"; JStr "email"]);
                                    ("msg", JStr "field required");
                                    ("type", JStr "value_error.missing")]])] |};
     message := "Request failed with status code 422" |}.

(** * Properties *)

(** ** Numbers *)

(** Rounding to the nearest integer stays on the side of every integer
    bound. *)
Lemma rne_upper (a b K : Z) : 0 < b -> a <= K * b -> rne a b <= K.
Proof.
  intros Hb Ha. unfold rne.
  pose proof (Z.div_mod a b ltac:(lia)) as Hdm.
  pose proof (Z.mod_pos_bound a b Hb) as Hr.
  assert (Hq : a / b <= K) by nia.
  destruct (Z.ltb_spec (2 * (a mod b)) b); [exact Hq|].
  assert (a / b < K) by nia.
  destruct (Z.ltb_spec b (2 * (a mod b))); [lia|].
  destruct (Z.even (a / b)); lia.
Qed.

Lemma rne_lower (a b K : Z) : 0 < b -> K * b <= a -> K <= rne a b.
Proof.
  intros Hb Ha. unfold rne.
  pose proof (Z.div_mod a b ltac:(lia)) as Hdm.
  pose proof (Z.mod_pos_bound a b Hb) as Hr.
  assert (Hq : K <= a / b) by nia.
  destruct (Z.ltb_spec (2 * (a mod b)) b); [exact Hq|].
  destruct (Z.ltb_spec b (2 * (a mod b))); [lia|].
  destruct (Z.even (a / b)); lia.
Qed.

Lemma rne_multiple (k b : Z) : 0 < b -> rne (k * b) b = k.
Proof.
  intros Hb. apply Z.le_antisymm.
  - apply rne_upper; lia.
  - apply rne_lower; lia.
Qed.

(** The quotient of two positive integers is above the power of two that
    their bit lengths give, less one. *)
Lemma pow2_le_bit_lengths (n d : Z) :
  0 < n -> 0 < d -> pow2_le (Z.log2 n - Z.log2 d - 1) n d = true.
Proof.
  intros Hn Hd.
  pose proof (Z.log2_spec n Hn) as [Hn1 _].
  pose proof (Z.log2_spec d Hd) as [_ Hd2].
  pose proof (Z.log2_nonneg n). pose proof (Z.log2_nonneg d).
  unfold pow2_le.
  destruct (Z.leb_spec 0 (Z.log2 n - Z.log2 d - 1)) as [Hg | Hg]; apply Z.leb_le.
  - assert (Hp : 2 ^ Z.log2 n
                 = 2 ^ Z.succ (Z.log2 d) * 2 ^ (Z.log2 n - Z.log2 d - 1)).
    { rewrite <- Z.pow_add_r by lia. f_equal. lia. }
    assert (0 < 2 ^ (Z.log2 n - Z.log2 d - 1)) by (apply Z.pow_pos_nonneg; lia).
    nia.
  - assert (Hp : 2 ^ Z.succ (Z.log2 d)
                 = 2 ^ Z.log2 n * 2 ^ (- (Z.log2 n - Z.log2 d - 1))).
    { rewrite <- Z.pow_add_r by lia. f_equal. lia. }
    assert (0 < 2 ^ (- (Z.log2 n - Z.log2 d - 1))) by (apply Z.pow_pos_nonneg; lia).
    nia.
Qed.

(** Above the subnormal range, [n / d] has a bit in the first of the 53
    places. *)
Lemma ulp_exponent_lower (n d : Z) :
  0 < n -> 0 < d ->
  -1074 <= ulp_exponent n d
  /\ (-1074 < ulp_exponent n d -> pow2_le (ulp_exponent n d + 52) n d = true).
Proof.
  intros Hn Hd. unfold ulp_exponent. set (g := Z.log2 n - Z.log2 d).
  split; [lia|]. intros H.
  destruct (pow2_le g n d) eqn:H1.
  - replace (Z.max (g - 52) (-1074) + 52) with g by lia. exact H1.
  - replace (Z.max (g - 1 - 52) (-1074) + 52) with (g - 1) by lia.
    apply pow2_le_bit_lengths; assumption.
Qed.

(** [n / d < 2 ^ x] is kept by a larger exponent. *)
Lemma pow2_le_false_mono (x y n d : Z) :
  0 < n -> 0 < d -> x <= y -> pow2_le x n d = false -> pow2_le y n d = false.
Proof.
  intros Hn Hd Hxy. unfold pow2_le.
  destruct (Z.leb_spec 0 x) as [Hx | Hx]; destruct (Z.leb_spec 0 y) as [Hy | Hy];
    try lia; rewrite !Z.leb_gt; intros H.
  - pose proof (Z.pow_le_mono_r 2 x y ltac:(lia) Hxy). nia.
  - assert (0 < 2 ^ (- x)) by (apply Z.pow_pos_nonneg; lia).
    assert (0 < 2 ^ y) by (apply Z.pow_pos_nonneg; lia). nia.
  - pose proof (Z.pow_le_mono_r 2 (- y) (- x) ltac:(lia) ltac:(lia)). nia.
Qed.

(** The quotient of two positive integers is below the power of two that
    their bit lengths give, plus one. *)
Lemma pow2_le_bit_lengths_above (n d : Z) :
  0 < n -> 0 < d -> pow2_le (Z.log2 n - Z.log2 d + 1) n d = false.
Proof.
  intros Hn Hd.
  pose proof (Z.log2_spec n Hn) as [_ Hn2].
  pose proof (Z.log2_spec d Hd) as [Hd1 _].
  pose proof (Z.log2_nonneg n). pose proof (Z.log2_nonneg d).
  unfold pow2_le.
  destruct (Z.leb_spec 0 (Z.log2 n - Z.log2 d + 1)) as [Hg | Hg]; apply Z.leb_gt.
  - assert (Hp : 2 ^ Z.succ (Z.log2 n)
                 = 2 ^ Z.log2 d * 2 ^ (Z.log2 n - Z.log2 d + 1)).
    { rewrite <- Z.pow_add_r by lia. f_equal. lia. }
    assert (0 < 2 ^ (Z.log2 n - Z.log2 d + 1)) by (apply Z.pow_pos_nonneg; lia).
    nia.
  - assert (Hp : 2 ^ Z.log2 d
                 = 2 ^ Z.succ (Z.log2 n) * 2 ^ (- (Z.log2 n - Z.log2 d + 1))).
    { rewrite <- Z.pow_add_r by lia. f_equal. lia. }
    assert (0 < 2 ^ (- (Z.log2 n - Z.log2 d + 1))) by (apply Z.pow_pos_nonneg; lia).
    nia.
Qed.

(** [n / d] has no bit above the 53 places. *)
Lemma ulp_exponent_upper (n d : Z) :
  0 < n -> 0 < d -> pow2_le (ulp_exponent n d + 53) n d = false.
Proof.
  intros Hn Hd. unfold ulp_exponent. set (g := Z.log2 n - Z.log2 d).
  destruct (pow2_le g n d) eqn:H1.
  - apply (pow2_le_false_mono (g + 1)); [assumption..|lia|].
    apply pow2_le_bit_lengths_above; assumption.
  - apply (pow2_le_false_mono g); [assumption..|lia|exact H1].
Qed.

(** The significand that [binary64] computes has at most 53 bits, and is
    within a half of the quotient it rounds. *)
Lemma significand_bits (n dn : Z) :
  0 < n -> 0 < dn ->
  let E := ulp_exponent n dn in
  let M := if 0 <=? E then rne n (dn * 2 ^ E) else rne (n * 2 ^ (- E)) dn in
  0 <= M <= 2 ^ 53
  /\ (if 0 <=? E then 2 * Z.abs (M * (dn * 2 ^ E) - n) <= dn * 2 ^ E
      else 2 * Z.abs (M * dn - n * 2 ^ (- E)) <= dn).
Proof.
  intros Hn Hd E M. subst M.
  pose proof (ulp_exponent_upper n dn Hn Hd) as Hup. fold E in Hup.
  assert (Hnear : forall a b : Z, 0 < b -> 2 * Z.abs (rne a b * b - a) <= b).
  { intros a b Hb. unfold rne.
    pose proof (Z.div_mod a b ltac:(lia)). pose proof (Z.mod_pos_bound a b Hb).
    destruct (Z.ltb_spec (2 * (a mod b)) b); [nia|].
    destruct (Z.ltb_spec b (2 * (a mod b))); [nia|].
    destruct (Z.even (a / b)); nia. }
  unfold pow2_le in Hup.
  destruct (Z.leb_spec 0 E) as [HE | HE].
  - destruct (Z.leb_spec 0 (E + 53)); [|lia]. apply Z.leb_gt in Hup.
    rewrite Z.pow_add_r in Hup by lia.
    assert (0 < 2 ^ E) by (apply Z.pow_pos_nonneg; lia).
    split; [split|].
    + apply (rne_lower n (dn * 2 ^ E) 0); nia.
    + apply rne_upper; nia.
    + apply Hnear. nia.
  - assert (0 < 2 ^ (- E)) by (apply Z.pow_pos_nonneg; lia).
    split; [split|].
    + apply (rne_lower (n * 2 ^ (- E)) dn 0); nia.
    + apply rne_upper; [exact Hd|].
      destruct (Z.leb_spec 0 (E + 53)) as [H53 | H53].
      * apply Z.leb_gt in Hup.
        assert (Hp : 2 ^ (E + 53) * 2 ^ (- E) = 2 ^ 53)
          by (rewrite <- Z.pow_add_r by lia; f_equal; lia).
        nia.
      * apply Z.leb_gt in Hup.
        assert (Hp : 2 ^ (- (E + 53)) * 2 ^ 53 = 2 ^ (- E))
          by (rewrite <- Z.pow_add_r by lia; f_equal; lia).
        assert (0 < 2 ^ 53) by reflexivity.
        nia.
    + apply Hnear, Hd.
Qed.

Lemma pow2_53 : 2 ^ 53 = 9007199254740992.
Proof. reflexivity. Qed.

(** A last place above one needs a value of [2 ^ 53] at least. *)
Lemma ulp_exponent_large (n dn K : Z) :
  0 < n -> 0 < dn -> n <= K * dn -> K <= 2 ^ 53 -> 0 < ulp_exponent n dn ->
  ulp_exponent n dn = 1 /\ n = 2 ^ 53 * dn /\ K = 2 ^ 53.
Proof.
  intros Hpos Hd Hn HK HE.
  destruct (ulp_exponent_lower n dn Hpos Hd) as [_ Hlow].
  specialize (Hlow ltac:(lia)). unfold pow2_le in Hlow.
  remember (ulp_exponent n dn) as E eqn:HeqE. clear HeqE.
  destruct (Z.leb_spec 0 (E + 52)); [|lia].
  apply Z.leb_le in Hlow.
  assert (Hp : 2 ^ (E + 52) = 2 ^ 53 * 2 ^ (E - 1)).
  { rewrite <- Z.pow_add_r by lia. f_equal. lia. }
  rewrite Hp in Hlow. rewrite pow2_53 in *.
  destruct (Z.eq_dec E 1) as [->|Hne].
  - change (2 ^ (1 - 1)) with 1 in Hlow. nia.
  - exfalso.
    assert (2 ^ 1 <= 2 ^ (E - 1)) by (apply Z.pow_le_mono_r; lia).
    change (2 ^ 1) with 2 in *. nia.
Qed.

Lemma num_gt_Fin (d : decnum) (n : Z) :
  num_gt (Fin d) n = false <-> (Qvalue d <= inject_Z n)%Q.
Proof.
  destruct d as [m e]. unfold num_gt, Qvalue. cbn [mant expo].
  destruct (Z.leb_spec 0 e) as [He | He].
  - rewrite Z.ltb_ge. unfold Qle, inject_Z. cbn. lia.
  - rewrite Z.ltb_ge. unfold Qle, inject_Z. cbn.
    assert (Hp : 0 < 10 ^ (- e)) by (apply Z.pow_pos_nonneg; lia).
    rewrite Z2Pos.id by exact Hp. lia.
Qed.

(** The significand that [binary64] computes for [n / dn] does not exceed
    an integer bound of at most 53 bits on [n / dn] ... *)
Lemma significand_upper (n dn K : Z) :
  0 < n -> 0 < dn -> n <= K * dn -> K <= 2 ^ 53 ->
  let E := ulp_exponent n dn in
  let M := if 0 <=? E then rne n (dn * 2 ^ E) else rne (n * 2 ^ (- E)) dn in
  if 0 <=? E then M * 2 ^ E <= K else M <= K * 2 ^ (- E).
Proof.
  intros Hpos Hd Hn HK E M. subst M.
  destruct (Z.leb_spec 0 E) as [HE | HE].
  - destruct (Z.eq_dec E 0) as [H0 | H0].
    + rewrite H0. change (2 ^ 0) with 1. rewrite !Z.mul_1_r. apply rne_upper; lia.
    + destruct (ulp_exponent_large n dn K Hpos Hd Hn HK ltac:(subst E; lia))
        as (H1 & H2 & H3).
      fold E in H1. rewrite H1, H2, H3. change (2 ^ 1) with 2.
      replace (2 ^ 53 * dn) with (2 ^ 52 * (dn * 2)) by (change (2 ^ 53) with (2 ^ 52 * 2); ring).
      rewrite rne_multiple by lia. reflexivity.
  - assert (Hp : 0 < 2 ^ (- E)) by (apply Z.pow_pos_nonneg; lia).
    apply rne_upper; [exact Hd | nia].
Qed.

(** ... and does not fall below one. *)
Lemma significand_lower (n dn K : Z) :
  0 < n -> 0 < dn -> K * dn <= n -> 0 <= K <= 2 ^ 53 ->
  let E := ulp_exponent n dn in
  let M := if 0 <=? E then rne n (dn * 2 ^ E) else rne (n * 2 ^ (- E)) dn in
  if 0 <=? E then K <= M * 2 ^ E else K * 2 ^ (- E) <= M.
Proof.
  intros Hpos Hd Hn HK E M. subst M.
  destruct (Z.leb_spec 0 E) as [HE | HE].
  - destruct (Z.eq_dec E 0) as [H0 | H0].
    + rewrite H0. change (2 ^ 0) with 1. rewrite !Z.mul_1_r. apply rne_lower; lia.
    + destruct (ulp_exponent_lower n dn Hpos Hd) as [_ Hlow]. fold E in Hlow.
      specialize (Hlow ltac:(lia)). unfold pow2_le in Hlow.
      destruct (Z.leb_spec 0 (E + 52)); [|lia]. apply Z.leb_le in Hlow.
      rewrite Z.pow_add_r in Hlow by lia.
      assert (Hp : 0 < 2 ^ E) by (apply Z.pow_pos_nonneg; lia).
      assert (H2 : 2 ^ 1 <= 2 ^ E) by (apply Z.pow_le_mono_r; lia).
      change (2 ^ 1) with 2 in H2.
      assert (HM : 2 ^ 52 <= rne n (dn * 2 ^ E)) by (apply rne_lower; nia).
      change (2 ^ 53) with (2 ^ 52 * 2) in HK.
      assert (0 < 2 ^ 52) by reflexivity. nia.
  - assert (Hp : 0 < 2 ^ (- E)) by (apply Z.pow_pos_nonneg; lia).
    apply rne_lower; [exact Hd | nia].
Qed.

(** Rounding does not cross an integer of at most 53 bits: a decimal that
    is at most [N] rounds to a binary64 that is at most [N]. *)
Lemma binary64_not_above (d : decnum) (N : Z) :
  - 2 ^ 53 <= N <= 2 ^ 53 ->
  (Qvalue d <= inject_Z N)%Q ->
  num_gt (binary64 d) N = false.
Proof.
  intros HN Hle. pose proof (proj2 (num_gt_Fin d N) Hle) as Hfin.
  unfold binary64.
  destruct (Z.eqb_spec (mant d) 0) as [|Hm0]; [exact Hfin|].
  set (n := if 0 <=? expo d then Z.abs (mant d) * 10 ^ expo d else Z.abs (mant d)).
  set (dn := if 0 <=? expo d then 1 else 10 ^ (- expo d)).
  assert (Hdn : 0 < dn).
  { subst dn. destruct (0 <=? expo d) eqn:He; [lia|].
    apply Z.leb_gt in He. apply Z.pow_pos_nonneg; lia. }
  assert (Hval : (if mant d <? 0 then - n else n) <= N * dn).
  { clear Hfin. destruct d as [m e]. unfold Qvalue, Qle, inject_Z in Hle.
    cbn [mant expo] in *. subst n dn.
    destruct (Z.leb_spec 0 e) as [He | He]; cbn in Hle.
    - destruct (Z.ltb_spec m 0); lia.
    - assert (Hp : 0 < 10 ^ (- e)) by (apply Z.pow_pos_nonneg; lia).
      rewrite Z2Pos.id in Hle by exact Hp.
      destruct (Z.ltb_spec m 0); lia. }
  assert (Hn : 0 < n).
  { subst n. destruct (0 <=? expo d) eqn:He; [|lia].
    apply Z.leb_le in He. pose proof (Z.pow_pos_nonneg 10 (expo d)). nia. }
  cbv zeta.
  set (E := ulp_exponent n dn).
  set (M := if 0 <=? E then rne n (dn * 2 ^ E) else rne (n * 2 ^ (- E)) dn).
  assert (H1024 : 2 ^ 53 < 2 ^ 1024) by (apply Z.pow_lt_mono_r; lia).
  assert (Hten : E < 0 -> 10 ^ (- E) = 2 ^ (- E) * 5 ^ (- E))
    by (intros _; rewrite <- Z.pow_mul_l; reflexivity).
  assert (H2 : E < 0 -> 0 < 2 ^ (- E)) by (intros H; apply Z.pow_pos_nonneg; lia).
  assert (H5 : E < 0 -> 0 < 5 ^ (- E)) by (intros H; apply Z.pow_pos_nonneg; lia).
  assert (Hdiv : E < 0 -> M mod 2 ^ (- E) = 0 -> M = 2 ^ (- E) * (M / 2 ^ (- E))).
  { intros H Hm. pose proof (Z.div_mod M (2 ^ (- E)) ltac:(specialize (H2 H); lia)). lia. }
  destruct (Z.ltb_spec (mant d) 0) as [Hneg | Hpos].
  - (* a negative decimal *)
    destruct ((0 <=? E) && (2 ^ 1024 <=? M * 2 ^ E)); [reflexivity|].
    match goal with |- context [if ?c then Fin d else _] => destruct c end;
      [exact Hfin|].
    pose proof (significand_lower n dn (Z.max 0 (- N)) Hn Hdn ltac:(nia) ltac:(lia))
      as Hlow.
    cbv zeta in Hlow. fold E in Hlow. fold M in Hlow.
    destruct (Z.leb_spec 0 E) as [HE | HE].
    + cbn [num_gt expo mant]. apply Z.ltb_ge. change (10 ^ 0) with 1. lia.
    + specialize (Hten HE). specialize (H2 HE). specialize (H5 HE). specialize (Hdiv HE).
      destruct (Z.eqb_spec (M mod 2 ^ (- E)) 0) as [Hm | Hm]; cbn [num_gt expo mant].
      * apply Z.ltb_ge. change (10 ^ 0) with 1. specialize (Hdiv Hm). nia.
      * destruct (Z.leb_spec 0 E); [lia|]. apply Z.ltb_ge. rewrite Hten. nia.
  - (* a positive decimal *)
    pose proof (significand_upper n dn N Hn Hdn Hval ltac:(lia)) as Hup.
    cbv zeta in Hup. fold E in Hup. fold M in Hup.
    destruct (Z.leb_spec 0 E) as [HE | HE]; cbn [andb].
    + destruct (Z.leb_spec (2 ^ 1024) (M * 2 ^ E)); [lia|].
      match goal with |- context [if ?c then Fin d else _] => destruct c end;
        [exact Hfin|].
      cbn [num_gt expo mant]. apply Z.ltb_ge. change (10 ^ 0) with 1. lia.
    + match goal with |- context [if ?c then Fin d else _] => destruct c end;
        [exact Hfin|].
      specialize (Hten HE). specialize (H2 HE). specialize (H5 HE). specialize (Hdiv HE).
      destruct (Z.eqb_spec (M mod 2 ^ (- E)) 0) as [Hm | Hm]; cbn [num_gt expo mant].
      * apply Z.ltb_ge. change (10 ^ 0) with 1. specialize (Hdiv Hm). nia.
      * destruct (Z.leb_spec 0 E); [lia|]. apply Z.ltb_ge. rewrite Hten. nia.
Qed.

(** An integer of at most 53 bits is rounded to itself. *)
Lemma rounded_multiple (V dn : Z) :
  0 < dn -> 0 < V <= 2 ^ 53 ->
  let E := ulp_exponent (V * dn) dn in
  let M := if 0 <=? E then rne (V * dn) (dn * 2 ^ E) else rne (V * dn * 2 ^ (- E)) dn in
  if 0 <=? E then M * 2 ^ E = V else M = V * 2 ^ (- E).
Proof.
  intros Hd HV E M. subst M.
  destruct (Z.leb_spec 0 E) as [HE | HE].
  - destruct (Z.eq_dec E 0) as [Hz | Hz].
    + rewrite Hz. change (2 ^ 0) with 1. rewrite !Z.mul_1_r. apply rne_multiple, Hd.
    + destruct (ulp_exponent_large (V * dn) dn V ltac:(nia) Hd ltac:(lia) ltac:(lia)
                  ltac:(subst E; lia)) as (H1 & _ & H3).
      fold E in H1. rewrite H1, H3. change (2 ^ 1) with 2.
      replace (2 ^ 53 * dn) with (2 ^ 52 * (dn * 2))
        by (change (2 ^ 53) with (2 ^ 52 * 2); ring).
      rewrite rne_multiple by lia. reflexivity.
  - replace (V * dn * 2 ^ (- E)) with (V * 2 ^ (- E) * dn) by ring.
    apply rne_multiple, Hd.
Qed.

Lemma binary64_integer (d : decnum) (v : Z) :
  (Qvalue d == inject_Z v)%Q -> Z.abs v <= 2 ^ 53 -> binary64 d = Fin d.
Proof.
  intros Hq Hv. unfold binary64.
  destruct (Z.eqb_spec (mant d) 0) as [|Hm0]; [reflexivity|].
  set (n := if 0 <=? expo d then Z.abs (mant d) * 10 ^ expo d else Z.abs (mant d)).
  set (dn := if 0 <=? expo d then 1 else 10 ^ (- expo d)).
  assert (Hdn : 0 < dn).
  { subst dn. destruct (0 <=? expo d) eqn:He; [lia|].
    apply Z.leb_gt in He. apply Z.pow_pos_nonneg; lia. }
  assert (Hn : n = Z.abs v * dn).
  { destruct d as [m e]. unfold Qvalue, Qeq, inject_Z in Hq.
    cbn [mant expo] in *. subst n dn.
    destruct (Z.leb_spec 0 e) as [He | He]; cbn in Hq.
    - pose proof (Z.pow_nonneg 10 e ltac:(lia)). nia.
    - assert (Hp : 0 < 10 ^ (- e)) by (apply Z.pow_pos_nonneg; lia).
      rewrite Z2Pos.id in Hq by exact Hp. nia. }
  assert (Hpos : 0 < n).
  { subst n. destruct (0 <=? expo d) eqn:He; [|lia].
    apply Z.leb_le in He. pose proof (Z.pow_pos_nonneg 10 (expo d)). nia. }
  pose proof (rounded_multiple (Z.abs v) dn Hdn ltac:(nia)) as Hm.
  cbv zeta in Hm |- *. rewrite <- Hn in Hm.
  set (E := ulp_exponent n dn) in *.
  set (M := if 0 <=? E then rne n (dn * 2 ^ E) else rne (n * 2 ^ (- E)) dn) in *.
  assert (H1024 : 2 ^ 53 < 2 ^ 1024) by (apply Z.pow_lt_mono_r; lia).
  destruct (Z.leb_spec 0 E) as [HE | HE]; cbn [andb].
  - rewrite Hm. destruct (Z.leb_spec (2 ^ 1024) (Z.abs v)); [lia|].
    rewrite Hn, Z.eqb_refl. reflexivity.
  - replace (M * dn) with (n * 2 ^ (- E)) by (rewrite Hm, Hn; ring).
    rewrite Z.eqb_refl. reflexivity.
Qed.

Lemma Qvalue_scale (d : decnum) (k : Z) :
  (Qvalue (Dec (mant d * k) (expo d)) == Qvalue d * inject_Z k)%Q.
Proof.
  destruct d as [m e]. unfold Qvalue. cbn [mant expo].
  destruct (0 <=? e); unfold Qeq, Qmult, inject_Z; cbn.
  - lia.
  - rewrite Pos.mul_1_r. lia.
Qed.

Lemma num_mul_not_above (d : decnum) (k N : Z) :
  - 2 ^ 53 <= N <= 2 ^ 53 ->
  (Qvalue d * inject_Z k <= inject_Z N)%Q ->
  num_gt (num_mul (Fin d) k) N = false.
Proof.
  intros HN Hle. cbn [num_mul]. apply binary64_not_above; [exact HN|].
  rewrite Qvalue_scale. exact Hle.
Qed.

Lemma num_mul_integer (d : decnum) (k v N : Z) :
  (Qvalue d * inject_Z k == inject_Z v)%Q -> Z.abs v <= 2 ^ 53 ->
  (num_gt (num_mul (Fin d) k) N = false <-> (Qvalue d * inject_Z k <= inject_Z N)%Q).
Proof.
  intros Hq Hv. cbn [num_mul].
  rewrite (binary64_integer _ v); [| rewrite Qvalue_scale; exact Hq | exact Hv].
  rewrite num_gt_Fin, Qvalue_scale. reflexivity.
Qed.

(** The nearest binary64 of one tenth; ties go to the even significand;
    the largest finite value and the first literal that is an infinity;
    the smallest subnormal and the underflow to zero. *)
Example binary64_samples :
  binary64 (Dec 1 (-1))
  = Fin (Dec 10000000000000000555111512312578270211815834045410156250 (-56))
  /\ binary64 (Dec 9007199254740993 0) = Fin (Dec 9007199254740992 0)
  /\ binary64 (Dec 9007199254740995 0) = Fin (Dec 9007199254740996 0)
  /\ binary64 (Dec 17976931348623158 292) = binary64 (Dec 17976931348623157 292)
  /\ binary64 (Dec 17976931348623159 292) = PosInf
  /\ binary64 (Dec (-1) 400) = NegInf
  /\ binary64 (Dec 3 (-324)) = binary64 (Dec 5 (-324))
  /\ binary64 (Dec 2 (-324)) = Fin (Dec 0 0)
  /\ binary64 (Dec 15 (-1)) = Fin (Dec 15 (-1)).
Proof. repeat split; vm_compute; reflexivity. Qed.

(** ** The token effect *)

Lemma atob_undefined : atob "undefined" = None.
Proof. reflexivity. Qed.

Section Session.
Context {rt : JSRuntime}.

Lemma decode_empty : decode "" = None.
Proof. reflexivity. Qed.

Lemma decode_nonempty (t : string) (p : jsval) : decode t = Some p -> t <> "".
Proof. intros Hd ->. rewrite decode_empty in Hd. discriminate. Qed.

Lemma truthy_token_Some (t : string) : truthy_token (Some t) = true <-> t <> "".
Proof.
  cbn. destruct (String.eqb_spec t ""); cbn; split; congruence.
Qed.

(** A value whose property read succeeds once answers every read. *)
Lemma js_get_defined (p v : jsval) (k k' : string) :
  js_get p k = Some v -> js_get p k' = Some (js_get_opt p k').
Proof. destruct p; cbn; intros; congruence. Qed.

Lemma unexpired_defined (p : jsval) (now : Z) (r : bool) (k : string) :
  unexpired p now = Some r -> js_get p k = Some (js_get_opt p k).
Proof.
  unfold unexpired. destruct (js_get p "exp") as [e|] eqn:He; [|discriminate].
  intros _. exact (js_get_defined _ _ _ _ He).
Qed.

Lemma try_block_accept (now : Z) (t : string) (p : jsval) (w : World) :
  decode t = Some p -> unexpired p now = Some true ->
  try_block now t w = Some (setUser (user_of p) w).
Proof.
  intros Hd Hu. unfold try_block. rewrite Hd. cbn. rewrite Hu. cbn.
  rewrite (unexpired_defined _ _ _ "user_id" Hu). cbn.
  rewrite (unexpired_defined _ _ _ "user_type" Hu). reflexivity.
Qed.

Lemma try_block_reject (now : Z) (t : string) (p : jsval) (w : World) :
  decode t = Some p -> unexpired p now = Some false ->
  try_block now t w = Some (setToken None (on_browser (removeItem "token") w)).
Proof. intros Hd Hu. unfold try_block. rewrite Hd. cbn. rewrite Hu. reflexivity. Qed.

Lemma try_block_throw (now : Z) (t : string) (w : World) :
  try_block now t w = None <-> throws now t.
Proof.
  unfold throws, try_block. destruct (decode t) as [p|] eqn:Hd; cbn.
  - destruct (unexpired p now) as [[|]|] eqn:Hu; cbn.
    + rewrite (unexpired_defined _ _ _ "user_id" Hu),
        (unexpired_defined _ _ _ "user_type" Hu). cbn.
      split; [discriminate|]. intros [?|(q & Hq & Hn)]; [discriminate|].
      injection Hq as <-. congruence.
    + split; [discriminate|]. intros [?|(q & Hq & Hn)]; [discriminate|].
      injection Hq as <-. congruence.
    + split; [|reflexivity]. intros _. right. eauto.
  - split; [|reflexivity]. intros _. now left.
Qed.

Lemma effect_absent (now : Z) (w : World) :
  truthy_token (token w) = false -> effect now w = setLoading false w.
Proof.
  unfold effect. destruct (token w) as [t|]; [|reflexivity].
  intros ->. reflexivity.
Qed.

Lemma effect_accept (now : Z) (t : string) (p : jsval) (w : World) :
  token w = Some t -> decode t = Some p -> unexpired p now = Some true ->
  effect now w = setLoading false (setUser (user_of p) w).
Proof.
  intros Ht Hd Hu. unfold effect. rewrite Ht.
  rewrite (proj2 (truthy_token_Some t) (decode_nonempty _ _ Hd)).
  rewrite (try_block_accept _ _ _ _ Hd Hu). reflexivity.
Qed.

Lemma effect_reject (now : Z) (t : string) (p : jsval) (w : World) :
  token w = Some t -> decode t = Some p -> unexpired p now = Some false ->
  effect now w
  = setLoading false (setToken None (on_browser (removeItem "token") w)).
Proof.
  intros Ht Hd Hu. unfold effect. rewrite Ht.
  rewrite (proj2 (truthy_token_Some t) (decode_nonempty _ _ Hd)).
  rewrite (try_block_reject _ _ _ _ Hd Hu). reflexivity.
Qed.

Lemma effect_catch (now : Z) (t : string) (w : World) :
  token w = Some t -> t <> "" -> throws now t ->
  effect now w
  = setLoading false (setToken None (on_browser (removeItem "token")
      (on_browser (console_error [LogStr "Invalid token"]) w))).
Proof.
  intros Ht Hne Hthrow. unfold effect. rewrite Ht.
  rewrite (proj2 (truthy_token_Some t) Hne).
  rewrite (proj2 (try_block_throw now t w) Hthrow). reflexivity.
Qed.

Lemma effect_clock_unread (now now' : Z) (w : World) :
  truthy_token (token w) = false -> effect now w = effect now' w.
Proof. intros Ht. rewrite !effect_absent by exact Ht. reflexivity. Qed.

(** A run of the effect leaves [token] alone or sets it to [null]. *)
Lemma effect_token (now : Z) (w : World) :
  token (effect now w) = token w \/ token (effect now w) = None.
Proof.
  unfold effect. destruct (token w) as [t|] eqn:Ht; cbn; [|now left].
  destruct (negb (String.eqb t "")); cbn; [|now left].
  unfold try_block. destruct (decode t) as [p|]; cbn; [|now right].
  destruct (unexpired p now) as [[|]|]; cbn; [|now right|now right].
  destruct (js_get p "user_id"); cbn; [|now right].
  destruct (js_get p "user_type"); cbn; [now left|now right].
Qed.

(** Two runs reach quiescence, whatever the fuel beyond that. *)
Lemma run_effects_settle (n : nat) (now : Z) (deps : option (option string))
    (w : World) :
  run_effects (S (S n)) now deps w = Some (settle now deps w).
Proof.
  unfold settle. cbn [run_effects].
  destruct (decide (deps = Some (token w))) as [|_]; [reflexivity|].
  cbv zeta. destruct (decide (token (effect now w) = token w)) as [Heq|Hne].
  - rewrite decide_True by congruence. reflexivity.
  - rewrite decide_False by congruence.
    destruct (effect_token now w) as [Hk|Hnone]; [congruence|].
    assert (Hstay : token (effect now (effect now w)) = None).
    { rewrite effect_absent by (rewrite Hnone; reflexivity). exact Hnone. }
    destruct n; cbn [run_effects]; rewrite decide_True by congruence; reflexivity.
Qed.

(** The effect would not run again after [settle]. *)
Lemma settle_quiescent (now : Z) (deps : option (option string)) (w : World) :
  settle now (Some (token (settle now deps w))) (settle now deps w)
  = settle now deps w.
Proof. unfold settle at 1. rewrite decide_True; reflexivity. Qed.

Lemma settle_same (now : Z) (w : World) :
  settle now (Some (token w)) w = w.
Proof. unfold settle. rewrite decide_True; reflexivity. Qed.

Lemma settle_absent (now : Z) (deps : option (option string)) (w : World) :
  deps <> Some (token w) -> truthy_token (token w) = false ->
  settle now deps w = setLoading false w.
Proof.
  intros Hd Ht. unfold settle. rewrite decide_False by exact Hd. cbv zeta.
  rewrite (effect_absent _ _ Ht). rewrite decide_True; reflexivity.
Qed.

Lemma settle_accept (now : Z) (deps : option (option string)) (t : string)
    (p : jsval) (w : World) :
  deps <> Some (token w) -> token w = Some t ->
  decode t = Some p -> unexpired p now = Some true ->
  settle now deps w = setLoading false (setUser (user_of p) w).
Proof.
  intros Hd Ht Hp Hu. unfold settle. rewrite decide_False by exact Hd. cbv zeta.
  rewrite (effect_accept _ _ _ _ Ht Hp Hu). rewrite decide_True; reflexivity.
Qed.

Lemma settle_reject (now : Z) (deps : option (option string)) (t : string)
    (p : jsval) (w : World) :
  deps <> Some (token w) -> token w = Some t ->
  decode t = Some p -> unexpired p now = Some false ->
  settle now deps w
  = setLoading false (setToken None (on_browser (removeItem "token") w)).
Proof.
  intros Hd Ht Hp Hu. unfold settle. rewrite decide_False by exact Hd. cbv zeta.
  rewrite (effect_reject _ _ _ _ Ht Hp Hu).
  rewrite decide_False by (cbn; congruence).
  rewrite effect_absent by reflexivity. reflexivity.
Qed.

Lemma settle_catch (now : Z) (deps : option (option string)) (t : string)
    (w : World) :
  deps <> Some (token w) -> token w = Some t -> t <> "" -> throws now t ->
  settle now deps w
  = setLoading false (setToken None (on_browser (removeItem "token")
      (on_browser (console_error [LogStr "Invalid token"]) w))).
Proof.
  intros Hd Ht Hne Hthrow. unfold settle. rewrite decide_False by exact Hd.
  cbv zeta. rewrite (effect_catch _ _ _ Ht Hne Hthrow).
  rewrite decide_False by (cbn; congruence).
  rewrite effect_absent by reflexivity. reflexivity.
Qed.

(** *** Page load *)

Lemma restore_absent (now : Z) (b : Browser) :
  truthy_token (getItem "token" b) = false ->
  restore now b
  = {| browser := b; user := JNull; token := getItem "token" b; loading := false |}.
Proof. intros Ht. unfold restore. rewrite settle_absent; done. Qed.

Lemma restore_accept (now : Z) (b : Browser) (t : string) (p : jsval) :
  getItem "token" b = Some t -> decode t = Some p -> unexpired p now = Some true ->
  restore now b
  = {| browser := b; user := user_of p; token := Some t; loading := false |}.
Proof.
  intros Ht Hp Hu. unfold restore.
  rewrite (settle_accept now None t p); try done.
  unfold mount. rewrite Ht. reflexivity.
Qed.

Lemma restore_reject (now : Z) (b : Browser) (t : string) (p : jsval) :
  getItem "token" b = Some t -> decode t = Some p -> unexpired p now = Some false ->
  restore now b
  = {| browser := removeItem "token" b; user := JNull; token := None;
       loading := false |}.
Proof.
  intros Ht Hp Hu. unfold restore. rewrite (settle_reject now None t p); done.
Qed.

Lemma restore_catch (now : Z) (b : Browser) (t : string) :
  getItem "token" b = Some t -> t <> "" -> throws now t ->
  restore now b
  = {| browser := removeItem "token" (console_error [LogStr "Invalid token"] b);
       user := JNull; token := None; loading := false |}.
Proof.
  intros Ht Hne Hthrow. unfold restore. rewrite (settle_catch now None t); done.
Qed.

(** [restore] is the result of React's loop, for any fuel of two or more. *)
Lemma restore_run_effects (n : nat) (now : Z) (b : Browser) :
  run_effects (S (S n)) now None (mount b) = Some (restore now b).
Proof. apply run_effects_settle. Qed.
End Session.

(** ** Samples run on the reference runtime *)

Example decode_admin_token : decode admin_token = Some admin_claims.
Proof. vm_compute. reflexivity. Qed.

Example decode_boundary_token : decode boundary_token = Some boundary_claims.
Proof. vm_compute. reflexivity. Qed.

Example decode_resigned_admin_token : decode resigned_admin_token = Some admin_claims.
Proof. vm_compute. reflexivity. Qed.

Example decode_two_segments_only : decode "a.b.c" = None /\ decode "no dots" = None.
Proof. split; vm_compute; reflexivity. Qed.

(** The code reads element 1 and does not count the segments: a payload
    behind a single dot, or followed by three more segments, decodes too. *)
Example decode_ignores_segment_count :
  decode "x.eyJ1c2VyX2lkIjoidS0xIiwidXNlcl90eXBlIjoiYWRtaW4iLCJleHAiOjE3MDAwMDM2MDB9"
  = Some admin_claims
  /\ decode "x.eyJ1c2VyX2lkIjoidS0xIiwidXNlcl90eXBlIjoiYWRtaW4iLCJleHAiOjE3MDAwMDM2MDB9.y.z.w"
     = Some admin_claims.
Proof. split; vm_compute; reflexivity. Qed.

Example split_samples :
  split "." "a.b.c" = ["a"; "b"; "c"] /\ split "." "" = [""]
  /\ split "." "a." = ["a"; ""] /\ split "." "." = [""; ""].
Proof. repeat split. Qed.

(** Padding is optional, white space is skipped, and the URL-safe
    alphabet of base64url is refused. *)
Example atob_samples :
  atob "YWJj" = Some "abc" /\ atob "YWI=" = Some "ab" /\ atob "YQ" = Some "a"
  /\ atob " YW Jj " = Some "abc" /\ atob "" = Some ""
  /\ atob "YQ=" = None /\ atob "YWJjZ" = None /\ atob "a-b_" = None.
Proof. repeat split. Qed.

Example parse_samples :
  Reference.parse "[1, -2.50e-1, 0, 1E2, true, null, [], {}]"
  = Some (JArr [JNum (Dec 1 0); JNum (Dec (-250) (-3)); JNum (Dec 0 0);
                JNum (Dec 1 2); JBool true; JNull; JArr []; JObj []])
  /\ Reference.parse "0.1"
     = Some (JNum (Dec 10000000000000000555111512312578270211815834045410156250 (-56)))
  /\ Reference.parse "9007199254740993" = Some (JNum (Dec 9007199254740992 0))
  /\ Reference.parse "1700000000.00000001" = Some (JNum (Dec 1700000000 0))
  /\ Reference.parse "8.005"
     = Some (JNum (Dec 80050000000000007815970093361102044582366943359375 (-49)))
  /\ Reference.parse "01" = None /\ Reference.parse "[1,]" = None
  /\ Reference.parse "1." = None /\ Reference.parse ".5" = None
  /\ Reference.parse "" = None /\ Reference.parse "nul" = None.
Proof. repeat split. Qed.

Example ToNumber_samples :
  ToNumber JUndefined = Some NaN
  /\ ToNumber (JStr " 12 ") = Some (Fin (Dec 12 0))
  /\ ToNumber (JStr "0x1F") = Some (Fin (Dec 31 0))
  /\ ToNumber (JStr "12px") = Some NaN
  /\ ToNumber (JArr []) = Some (Fin (Dec 0 0))
  /\ ToNumber (JArr [JNum (Dec 15 (-1))]) = Some (Fin (Dec 15 (-1)))
  /\ ToNumber (JArr [JNum (Dec 1 0); JNum (Dec 2 0)]) = Some NaN
  /\ ToNumber (JObj []) = Some NaN
  /\ ToNumber (JObj [("toString", JNull)]) = None.
Proof. repeat split. Qed.

Example NumberToString_samples :
  map NumberToString
    [Dec 1700000000 0; Dec 15 (-1); Dec 5 (-3); Dec 1 21; Dec 15 (-8); Dec (-120) 0]
  = ["1700000000"; "1.5"; "0.005"; "1e+21"; "1.5e-7"; "-120"].
Proof. reflexivity. Qed.

(** Scenario A of the specification: nothing stored, public storefront. *)
Example scenario_A : App (restore sample_clock empty_browser) = ViewPublicStore.
Proof. vm_compute. reflexivity. Qed.

(** Scenario B: an admin credential that expires in an hour. *)
Example scenario_B :
  App (restore sample_clock (browser_with admin_token))
  = ViewAdminPanel (Some admin_token).
Proof. vm_compute. reflexivity. Qed.

Example buyer_sees_dashboard :
  App (restore sample_clock (browser_with buyer_token)) = ViewDashboard.
Proof. vm_compute. reflexivity. Qed.

Example first_render_is_loading (b : Browser) : App (mount b) = ViewLoading.
Proof. reflexivity. Qed.

(** ** Expiry (C1) and view selection (C2) *)

Section Expiry.
Context {rt : JSRuntime}.

Lemma unexpired_number (claims : jsval) (exp : decnum) (now : Z) :
  js_get claims "exp" = Some (JNum exp) ->
  unexpired claims now = Some (num_gt (num_mul (Fin exp) 1000) now).
Proof. intros He. unfold unexpired. rewrite He. reflexivity. Qed.

Lemma App_authenticated (p : jsval) (b : Browser) (t : option string) :
  App {| browser := b; user := user_of p; token := t; loading := false |}
  = if strict_eq_str (js_get_opt p "user_type") "admin"
    then ViewAdminPanel (getItem "token" b) else ViewDashboard.
Proof.
  unfold App, renderAdminContent, Dashboard. cbn.
  destruct (strict_eq_str (js_get_opt p "user_type") "admin"); reflexivity.
Qed.

(** A payload object without [exp]: [undefined * 1000] is [NaN], no
    comparison with [NaN] holds, and the credential is removed. *)
Lemma restore_missing_exp (now : Z) (b : Browser) (c : string)
    (props : list (string * jsval)) :
  getItem "token" b = Some c ->
  decode c = Some (JObj props) ->
  own_property "exp" props = None ->
  restore now b
  = {| browser := removeItem "token" b; user := JNull; token := None;
       loading := false |}.
Proof.
  intros Hs Hd Hp. apply (restore_reject _ _ _ _ Hs Hd).
  unfold unexpired. cbn. rewrite Hp. reflexivity.
Qed.

(** C1.  Let the stored credential decode to claims whose [exp] is a
    number, in seconds, and let [now] be [Date.now()], an integer of at
    most 53 bits, in milliseconds.  If [exp * 1000 <= now] then [restore]
    removes the credential from [localStorage], leaves no token and no
    user, and [App] renders the public storefront.  The session ends
    without a token, and the public storefront is rendered, exactly when
    the product [exp * 1000] as JavaScript computes it, rounded to
    binary64, is at most [now], equality included.  Whenever [exp * 1000]
    is an integer of at most 53 bits, as it is for every integral [exp]
    of such a size, that is exactly when [exp * 1000 <= now]. *)
Theorem restore_expired_credential (now : Z) (b : Browser) (c : string)
    (claims : jsval) (exp : decnum) :
  getItem "token" b = Some c ->
  decode c = Some claims ->
  js_get claims "exp" = Some (JNum exp) ->
  - 2 ^ 53 <= now <= 2 ^ 53 ->
  let w := restore now b in
  let expired := (Qvalue exp * inject_Z 1000 <= inject_Z now)%Q in
  let product := num_mul (Fin exp) 1000 in
  (expired ->
     getItem "token" (browser w) = None /\ token w = None /\ user w = JNull
     /\ loading w = false /\ App w = ViewPublicStore)
  /\ (token w = None <-> num_gt product now = false)
  /\ (App w = ViewPublicStore <-> num_gt product now = false)
  /\ (forall v : Z,
        (Qvalue exp * inject_Z 1000 == inject_Z v)%Q -> Z.abs v <= 2 ^ 53 ->
        (token w = None <-> expired) /\ (App w = ViewPublicStore <-> expired)).
Proof.
  intros Hs Hd He Hnow w expired product. subst w expired product.
  pose proof (unexpired_number _ _ now He) as Hu.
  pose proof (num_mul_not_above exp 1000 now Hnow) as Hround.
  destruct (num_gt (num_mul (Fin exp) 1000) now) eqn:Hgt.
  - (* still valid *)
    rewrite (restore_accept _ _ _ _ Hs Hd Hu).
    assert (Hno : ~ (Qvalue exp * inject_Z 1000 <= inject_Z now)%Q)
      by (intros Hle; specialize (Hround Hle); discriminate).
    assert (Htok : token {| browser := b; user := user_of claims; token := Some c;
                            loading := false |} <> None) by (cbn; discriminate).
    assert (Hview : App {| browser := b; user := user_of claims; token := Some c;
                           loading := false |} <> ViewPublicStore).
    { rewrite App_authenticated. destruct (strict_eq_str _ _); discriminate. }
    split; [tauto|]. split; [split; [tauto|discriminate]|].
    split; [split; [tauto|discriminate]|].
    intros v Hq Hv. tauto.
  - (* expired *)
    rewrite (restore_reject _ _ _ _ Hs Hd Hu).
    assert (Hgone : getItem "token" (removeItem "token" b) = None)
      by apply lookup_delete_eq.
    split; [intros _; split; [exact Hgone|repeat split]|].
    split; [split; reflexivity|]. split; [split; reflexivity|].
    intros v Hq Hv.
    pose proof (proj1 (num_mul_integer exp 1000 v now Hq Hv) Hgt) as Hle.
    split; split; intros _; solve [exact Hle | reflexivity].
Qed.


End Expiry.

(** The boundary case: a credential whose [exp] is the current second. *)
Lemma restore_expired_credential_witness :
  let w := restore sample_clock (browser_with boundary_token) in
  getItem "token" (browser w) = None /\ token w = None /\ user w = JNull
  /\ loading w = false /\ App w = ViewPublicStore.
Proof.
  refine (proj1 (restore_expired_credential sample_clock
            (browser_with boundary_token) boundary_token boundary_claims
            (Dec 1700000000 0) _ _ _ _) _).
  - reflexivity.
  - vm_compute. reflexivity.
  - reflexivity.
  - split; vm_compute; discriminate.
  - vm_compute. discriminate.
Defined.

(** A credential that the rounding of the product expires early: its [exp]
    lies after [rounding_clock], by less than two nanoseconds, and
    [exp * 1000] is rounded to [rounding_clock] itself. *)
Lemma rounded_product_expires_early :
  getItem "token" (browser_with rounding_token) = Some rounding_token
  /\ decode rounding_token = Some rounding_claims
  /\ js_get rounding_claims "exp" = Some (JNum rounding_exp)
  /\ ~ (Qvalue rounding_exp * inject_Z 1000 <= inject_Z rounding_clock)%Q
  /\ num_mul (Fin rounding_exp) 1000 = Fin (Dec rounding_clock 0)
  /\ token (restore rounding_clock (browser_with rounding_token)) = None
  /\ getItem "token" (browser (restore rounding_clock (browser_with rounding_token)))
     = None
  /\ App (restore rounding_clock (browser_with rounding_token)) = ViewPublicStore.
Proof.
  split; [reflexivity|]. split; [vm_compute; reflexivity|].
  split; [reflexivity|].
  split; [intros H; vm_compute in H; apply H; reflexivity|].
  repeat split; vm_compute; reflexivity.
Qed.


(** ** Malformed credentials (C6) and the unread segments (C10) *)

Section Malformed.
Context {rt : JSRuntime}.

(** C6, amended.  For every non-empty stored credential on which the [try]
    block throws (decoding fails, or the decoded payload is [null]),
    [restore] removes the credential from [localStorage], ends with no
    token and no user, and [App] renders the public storefront.  The user
    sees no error: nothing is alerted; one line goes to the console. *)
Theorem restore_malformed_credential (now : Z) (b : Browser) (c : string) :
  getItem "token" b = Some c ->
  c <> "" ->
  throws now c ->
  let w := restore now b in
  getItem "token" (browser w) = None /\ token w = None /\ user w = JNull
  /\ loading w = false /\ App w = ViewPublicStore
  /\ alerts (browser w) = alerts b
  /\ console (browser w) = (console b ++ [[LogStr "Invalid token"]])%list.
Proof.
  intros Hs Hne Hthrow w. subst w.
  rewrite (restore_catch _ _ _ Hs Hne Hthrow).
  cbn. repeat split. apply lookup_delete_eq.
Qed.

(** An empty string under the key is no credential for the effect: the
    guard [if (token)] skips it, and it stays where it is. *)
Lemma restore_empty_string (now : Z) (b : Browser) :
  getItem "token" b = Some "" ->
  restore now b = {| browser := b; user := JNull; token := Some ""; loading := false |}.
Proof. intros Hs. rewrite restore_absent; rewrite Hs; reflexivity. Qed.

Lemma second_segment_nonempty (t seg : string) :
  split "." t !! 1%nat = Some seg -> t <> "".
Proof. intros Hseg ->. discriminate Hseg. Qed.

Lemma decode_second_segment (a b seg : string) :
  split "." a !! 1%nat = Some seg -> split "." b !! 1%nat = Some seg ->
  decode a = decode b.
Proof. intros Ha Hb. unfold decode. rewrite Ha, Hb. reflexivity. Qed.

(** C10.  Two credentials with the same second segment decode alike, and
    [restore] treats them alike from the same browser state: either both
    are removed and the two runs end in the same world, or both are kept,
    each as the token and the stored item, under the same user. *)
Theorem decode_reads_second_segment_only (now : Z) (b0 : Browser)
    (a b seg : string) :
  split "." a !! 1%nat = Some seg ->
  split "." b !! 1%nat = Some seg ->
  let wa := restore now (setItem "token" a b0) in
  let wb := restore now (setItem "token" b b0) in
  decode a = decode b
  /\ ((token wa = None /\ wa = wb)
      \/ exists u : jsval,
           wa = {| browser := setItem "token" a b0; user := u;
                   token := Some a; loading := false |}
           /\ wb = {| browser := setItem "token" b b0; user := u;
                      token := Some b; loading := false |}).
Proof.
  intros Ha Hb wa wb. subst wa wb.
  pose proof (decode_second_segment _ _ _ Ha Hb) as Hdec.
  pose proof (second_segment_nonempty _ _ Ha) as Hna.
  pose proof (second_segment_nonempty _ _ Hb) as Hnb.
  assert (Hsa : getItem "token" (setItem "token" a b0) = Some a)
    by apply lookup_insert_eq.
  assert (Hsb : getItem "token" (setItem "token" b b0) = Some b)
    by apply lookup_insert_eq.
  assert (Hrm : removeItem "token" (setItem "token" a b0)
                = removeItem "token" (setItem "token" b b0)).
  { unfold removeItem, setItem. cbn. rewrite !delete_insert_eq. reflexivity. }
  assert (Hrm' : removeItem "token"
                   (console_error [LogStr "Invalid token"] (setItem "token" a b0))
                 = removeItem "token"
                     (console_error [LogStr "Invalid token"] (setItem "token" b b0))).
  { unfold removeItem, console_error, setItem. cbn.
    rewrite !delete_insert_eq. reflexivity. }
  split; [exact Hdec|].
  destruct (decode a) as [p|] eqn:Hda.
  - symmetry in Hdec. destruct (unexpired p now) as [[|]|] eqn:Hu.
    + right. exists (user_of p).
      rewrite (restore_accept _ _ _ _ Hsa Hda Hu),
        (restore_accept _ _ _ _ Hsb Hdec Hu). split; reflexivity.
    + left.
      rewrite (restore_reject _ _ _ _ Hsa Hda Hu),
        (restore_reject _ _ _ _ Hsb Hdec Hu), Hrm. split; reflexivity.
    + left.
      rewrite (restore_catch _ _ _ Hsa Hna), (restore_catch _ _ _ Hsb Hnb), Hrm';
        [split; reflexivity | right; eauto | right; eauto].
  - symmetry in Hdec. left.
    rewrite (restore_catch _ _ _ Hsa Hna), (restore_catch _ _ _ Hsb Hnb), Hrm';
      [split; reflexivity | now left | now left].
Qed.
End Malformed.

Lemma restore_malformed_credential_witness :
  let w := restore sample_clock (browser_with "a.b.c") in
  getItem "token" (browser w) = None /\ token w = None /\ user w = JNull
  /\ loading w = false /\ App w = ViewPublicStore
  /\ alerts (browser w) = []
  /\ console (browser w) = [[LogStr "Invalid token"]].
Proof.
  refine (restore_malformed_credential sample_clock (browser_with "a.b.c") "a.b.c" _ _ _).
  - reflexivity.
  - discriminate.
  - left. vm_compute. reflexivity.
Defined.

(** C6 as the specification words it fails at the empty string: it cannot be
    decoded, and [restore] leaves it in [localStorage]. *)
Lemma restore_keeps_empty_string :
  decode "" = None
  /\ getItem "token" (browser (restore sample_clock (browser_with ""))) = Some "".
Proof. split; vm_compute; reflexivity. Qed.

Lemma decode_reads_second_segment_only_witness :
  decode admin_token = decode resigned_admin_token
  /\ exists u : jsval,
       restore sample_clock (setItem "token" admin_token empty_browser)
       = {| browser := setItem "token" admin_token empty_browser; user := u;
            token := Some admin_token; loading := false |}
       /\ restore sample_clock (setItem "token" resigned_admin_token empty_browser)
          = {| browser := setItem "token" resigned_admin_token empty_browser;
               user := u; token := Some resigned_admin_token; loading := false |}.
Proof.
  destruct (decode_reads_second_segment_only sample_clock empty_browser
              admin_token resigned_admin_token
              "eyJ1c2VyX2lkIjoidS0xIiwidXNlcl90eXBlIjoiYWRtaW4iLCJleHAiOjE3MDAwMDM2MDB9"
              eq_refl eq_refl) as [Hdec [[Hnone _] | Hkept]].
  - exfalso. vm_compute in Hnone. discriminate Hnone.
  - split; [exact Hdec | exact Hkept].
Defined.

(** ** [login], [logout] and the store (C3, C7, C8) *)

Lemma removeItem_twice (k : string) (b : Browser) :
  removeItem k (removeItem k b) = removeItem k b.
Proof. unfold removeItem. cbn. rewrite delete_delete_eq. reflexivity. Qed.

Lemma getItem_removeItem (k : string) (b : Browser) :
  getItem k (removeItem k b) = None.
Proof. apply lookup_delete_eq. Qed.

Lemma getItem_setItem (k v : string) (b : Browser) :
  getItem k (setItem k v b) = Some v.
Proof. apply lookup_insert_eq. Qed.

Section Handlers.
Context {rt : JSRuntime}.

(** [logout] and the effect run it may trigger: the run only confirms
    that loading is over. *)
Lemma after_logout (now : Z) (w : World) :
  after now logout w
  = if decide (token w = None) then logout w else setLoading false (logout w).
Proof.
  unfold after. destruct (decide (token w = None)) as [Hn|Hn].
  - rewrite <- (settle_same now (logout w)) at 2. cbn. rewrite Hn. reflexivity.
  - apply settle_absent; [cbn; congruence | reflexivity].
Qed.

(** [login] with a credential that the effect then refuses: the effect
    removes the credential and leaves the user that [login] has set. *)
Lemma login_refused_keeps_user (now : Z) (c : string) (u : jsval) (w : World) :
  token w <> Some c ->
  c <> "" ->
  (throws now c \/ exists p, decode c = Some p /\ unexpired p now = Some false) ->
  let w' := after now (login c u) w in
  user w' = u /\ token w' = None /\ getItem "token" (browser w') = None
  /\ loading w' = false.
Proof.
  intros Hdiff Hne Hbad w'. subst w'. unfold after.
  assert (Hdeps : Some (token w) <> Some (token (login c u w)))
    by (cbn; congruence).
  destruct Hbad as [Hthrow | (p & Hd & Hu)].
  - rewrite (settle_catch now _ c _ Hdeps eq_refl Hne Hthrow).
    cbn. repeat split. apply lookup_delete_eq.
  - rewrite (settle_reject now _ c p _ Hdeps eq_refl Hd Hu).
    cbn. repeat split. apply lookup_delete_eq.
Qed.

(** [login] with a credential that the effect accepts: the user becomes
    the one the credential names, whatever [login] was given. *)
Lemma login_accepted (now : Z) (c : string) (u p : jsval) (w : World) :
  token w <> Some c ->
  decode c = Some p -> unexpired p now = Some true ->
  after now (login c u) w
  = {| browser := setItem "token" c (browser w); user := user_of p;
       token := Some c; loading := false |}
  /\ session_invariant (after now (login c u) w).
Proof.
  intros Hdiff Hd Hu.
  assert (Hdeps : Some (token w) <> Some (token (login c u w)))
    by (cbn; congruence).
  assert (Hw : after now (login c u) w
               = {| browser := setItem "token" c (browser w); user := user_of p;
                    token := Some c; loading := false |})
    by (unfold after; rewrite (settle_accept now _ c p _ Hdeps eq_refl Hd Hu);
        reflexivity).
  split; [exact Hw|]. rewrite Hw. intros _.
  cbn [user token browser truthy user_of].
  rewrite getItem_setItem.
  rewrite (proj2 (truthy_token_Some c) (decode_nonempty _ _ Hd)). tauto.
Qed.

(** The invariant holds on page load, before and after the check. *)
Lemma mount_invariant (b : Browser) : session_invariant (mount b).
Proof. intros Hl. discriminate Hl. Qed.

Lemma restore_invariant (now : Z) (b : Browser) :
  session_invariant (restore now b).
Proof.
  intros _.
  destruct (truthy_token (getItem "token" b)) eqn:Htt.
  - destruct (getItem "token" b) as [t|] eqn:Hs; [|discriminate].
    pose proof (proj1 (truthy_token_Some t) Htt) as Hne.
    destruct (decode t) as [p|] eqn:Hd.
    + destruct (unexpired p now) as [[|]|] eqn:Hu.
      * rewrite (restore_accept _ _ _ _ Hs Hd Hu). cbn.
        fold (truthy_token (Some t)). rewrite Htt. tauto.
      * rewrite (restore_reject _ _ _ _ Hs Hd Hu). cbn.
        split; [discriminate | intros [? _]; discriminate].
      * rewrite (restore_catch _ _ _ Hs Hne) by (right; eauto). cbn.
        split; [discriminate | intros [? _]; discriminate].
    + rewrite (restore_catch _ _ _ Hs Hne) by now left. cbn.
      split; [discriminate | intros [? _]; discriminate].
  - rewrite (restore_absent _ _ Htt). cbn. rewrite Htt.
    split; [discriminate | intros [? _]; discriminate].
Qed.

Lemma logout_invariant (now : Z) (w : World) :
  session_invariant (logout w) /\ session_invariant (after now logout w).
Proof.
  split.
  - intros _. cbn. split; [discriminate | intros [? _]; discriminate].
  - rewrite after_logout. destruct (decide (token w = None)); intros _; cbn;
      (split; [discriminate | intros [? _]; discriminate]).
Qed.

(** C7.  After [login] and then [logout] nothing is stored under the key,
    and there is neither token nor user; a further [logout] changes
    nothing.  This holds for the two handlers alone and also with the
    effect runs that React interleaves. *)
Theorem login_then_logout (now1 now2 now3 : Z) (c : string) (u : jsval)
    (w : World) :
  let w1 := logout (login c u w) in
  let w2 := after now2 logout (after now1 (login c u) w) in
  (getItem "token" (browser w1) = None /\ token w1 = None /\ user w1 = JNull
   /\ logout w1 = w1)
  /\ (getItem "token" (browser w2) = None /\ token w2 = None /\ user w2 = JNull
      /\ after now3 logout w2 = w2).
Proof.
  intros w1 w2. split.
  - subst w1. cbn. repeat split; [apply lookup_delete_eq|].
    unfold logout, setUser, setToken, on_browser. cbn.
    rewrite removeItem_twice. reflexivity.
  - subst w2. set (w' := after now1 (login c u) w).
    assert (Hw2 : exists l, after now2 logout w'
                            = {| browser := removeItem "token" (browser w');
                                 user := JNull; token := None; loading := l |}).
    { rewrite after_logout. destruct (decide (token w' = None)); eauto. }
    destruct Hw2 as [l ->]. cbn. repeat split; [apply lookup_delete_eq|].
    rewrite after_logout. cbn. unfold logout, setUser, setToken, on_browser. cbn.
    rewrite removeItem_twice. reflexivity.
Qed.

(** C8.  What [login] stores under the key ['token'] is what the next page
    load reads from it: [getItem] after [setItem] answers the credential,
    and a second [setItem] replaces the first. *)
Theorem session_store_round_trip (c : string) (b : Browser) (u : jsval)
    (w : World) :
  getItem "token" (setItem "token" c b) = Some c
  /\ (forall c0 : string,
        setItem "token" c (setItem "token" c0 b) = setItem "token" c b)
  /\ getItem "token" (browser (login c u w)) = Some c
  /\ token (mount (browser (login c u w))) = Some c.
Proof.
  repeat split.
  - apply getItem_setItem.
  - intros c0. unfold setItem. cbn. rewrite insert_insert_eq. reflexivity.
  - apply getItem_setItem.
  - apply getItem_setItem.
Qed.
End Handlers.

(** C3 at the failing input: from the anonymous state, [login] with a
    credential that has already expired and an admin user.  The effect
    removes the credential and the user stays: the admin panel is rendered
    with no credential, and the invariant is broken. *)
Theorem login_expired_breaks_invariant :
  let w0 := restore sample_clock empty_browser in
  let w := after sample_clock (login boundary_token admin_user) w0 in
  session_invariant w0
  /\ user w = admin_user /\ token w = None
  /\ getItem "token" (browser w) = None
  /\ App w = ViewAdminPanel None
  /\ ~ session_invariant w.
Proof.
  intros w0 w.
  assert (Hw : w = {| browser := empty_browser; user := admin_user;
                      token := None; loading := false |})
    by (vm_compute; reflexivity).
  split; [apply restore_invariant|].
  rewrite Hw. repeat split.
  intros Hinv. destruct (Hinv eq_refl) as [Hto _].
  destruct (Hto eq_refl) as [Habs _]. discriminate Habs.
Qed.

(** ** [apiCall] (C5, C9) and the settings screens (C4) *)

Section Requests.
Variable BACKEND_URL : option string.

(** C9, amended.  The request goes to [API], the configured base,
    followed by the endpoint, with the given method.  It carries
    [Authorization: Bearer] followed by the credential exactly when the
    [token] argument is truthy (a non-empty string), and no such header
    otherwise.  It carries the body, with [Content-Type:
    application/json], exactly when the [data] argument is truthy.  It
    carries no other header. *)
Theorem request_config_contents (endpoint method : string) (data : jsval)
    (token : option string) :
  let config := request_config BACKEND_URL endpoint method data token in
  Config.url config = API BACKEND_URL +:+ endpoint
  /\ Config.method config = method
  /\ Config.headers config !! "Authorization"
     = (if truthy_token token then (fun t => "Bearer " +:+ t) <$> token else None)
  /\ Config.headers config !! "Content-Type"
     = (if truthy data then Some "application/json" else None)
  /\ Config.data config = (if truthy data then Some data else None)
  /\ (forall k : string,
        k <> "Authorization" -> k <> "Content-Type" ->
        Config.headers config !! k = None).
Proof.
  intros config. subst config. unfold request_config.
  destruct token as [t|]; cbn [truthy_token fmap option_fmap option_map];
    [destruct (negb (String.eqb t "")) eqn:Ht|];
    destruct (truthy data); cbn [Config.url Config.method Config.headers Config.data];
    repeat split; try reflexivity;
    try (intros k Hk1 Hk2; rewrite ?lookup_insert_ne by congruence;
         apply lookup_empty).
Qed.

(** C5, amended.  When [axios] rejects, [apiCall] throws the body of the
    response when there is one and it is truthy, and otherwise the [axios]
    error itself; it logs the body, or else the message of the error. *)
Theorem apiCall_rejected (endpoint method : string) (data : jsval)
    (token : option string) (axios : Config.t -> outcome) (b : Browser)
    (e : AxiosError) :
  axios (request_config BACKEND_URL endpoint method data token) = Rejected e ->
  apiCall BACKEND_URL endpoint method data token axios b
  = (console_error
       [LogStr "API Error:";
        LogVal (if truthy (response_data e) then response_data e
                else JStr (message e))] b,
     inr (if truthy (response_data e) then ThrownValue (response_data e)
          else ThrownError e)).
Proof. intros Hrej. unfold apiCall, rethrown, js_or. rewrite Hrej. reflexivity. Qed.

(** C4, amended.  When the save request of a settings screen is rejected,
    the screen alerts the fixed text ['Error saving settings'], keeps the
    edit buffer, and enables the save button again; what the server sent
    goes to the console only. *)
Theorem handleSaveSettings_rejected (t : tab) (token : option string)
    (axios : Config.t -> outcome) (s : Screen) (b : Browser) (e : AxiosError) :
  axios (request_config BACKEND_URL (settings_endpoint t) "POST" (settings s) token)
  = Rejected e ->
  let s' := fst (handleSaveSettings BACKEND_URL t token axios s b) in
  let b' := snd (handleSaveSettings BACKEND_URL t token axios s b) in
  settings s' = settings s
  /\ saving s' = false /\ save_enabled s' = true
  /\ alerts b' = (alerts b ++ ["Error saving settings"])%list
  /\ console b'
     = (console b
        ++ [[LogStr "API Error:"; LogVal (js_or (response_data e) (JStr (message e)))];
            [LogStr (save_error_label t); LogThrown (rethrown e)]])%list
  /\ localStorage b' = localStorage b.
Proof.
  intros Hrej s' b'. subst s' b'. unfold handleSaveSettings, apiCall.
  cbn [settings setSaving]. rewrite Hrej. cbn.
  rewrite <- app_assoc. repeat split.
Qed.

(** While the request is in flight the save button is disabled. *)
Lemma save_in_flight_disabled (s : Screen) :
  save_enabled (save_in_flight s) = false /\ settings (save_in_flight s) = settings s.
Proof. split; reflexivity. Qed.
End Requests.

Lemma apiCall_rejected_witness :
  apiCall None "/admin/settings/marketing" "POST" (settings sample_screen)
    (Some admin_token) (fun _ => Rejected (smtp_error 400)) empty_browser
  = (console_error
       [LogStr "API Error:"; LogVal (JObj [("detail", JStr "Invalid SMTP key")])]
       empty_browser,
     inr (ThrownValue (JObj [("detail", JStr "Invalid SMTP key")]))).
Proof.
  exact (apiCall_rejected None "/admin/settings/marketing" "POST"
           (settings sample_screen) (Some admin_token)
           (fun _ => Rejected (smtp_error 400)) empty_browser (smtp_error 400) eq_refl).
Defined.

(** C5 as the specification words it fails: with no answer from the server the
    caller catches the [axios] error itself, and what is thrown for an
    answer does not tell its status. *)
Lemma apiCall_throws_raw_error :
  snd (apiCall None "/auth/login" "POST" JNull None
         (fun _ => Rejected network_error) empty_browser)
  = inr (ThrownError network_error)
  /\ snd (apiCall None "/auth/login" "POST" JNull None
            (fun _ => Rejected (smtp_error 400)) empty_browser)
     = snd (apiCall None "/auth/login" "POST" JNull None
              (fun _ => Rejected (smtp_error 500)) empty_browser).
Proof. split; reflexivity. Qed.

Lemma handleSaveSettings_rejected_witness :
  let r := handleSaveSettings None Marketing (Some admin_token)
             (fun _ => Rejected (smtp_error 400)) sample_screen empty_browser in
  settings (fst r) = settings sample_screen
  /\ saving (fst r) = false /\ save_enabled (fst r) = true
  /\ alerts (snd r) = ["Error saving settings"]
  /\ console (snd r)
     = [[LogStr "API Error:"; LogVal (JObj [("detail", JStr "Invalid SMTP key")])];
        [LogStr "Error saving marketing settings:";
         LogThrown (ThrownValue (JObj [("detail", JStr "Invalid SMTP key")]))]]
  /\ localStorage (snd r) = ∅.
Proof.
  exact (handleSaveSettings_rejected None Marketing (Some admin_token)
           (fun _ => Rejected (smtp_error 400)) sample_screen empty_browser
           (smtp_error 400) eq_refl).
Defined.

(** C4 as the specification words it fails at scenario C: the server says
    ['Invalid SMTP key'] and the screen alerts another text. *)
Lemma save_failure_alert_is_generic :
  let r := handleSaveSettings None Marketing (Some admin_token)
             (fun _ => Rejected (smtp_error 400)) sample_screen empty_browser in
  alerts (snd r) = ["Error saving settings"]
  /\ ~ In "Invalid SMTP key" (alerts (snd r)).
Proof.
  split; [reflexivity|]. cbn. intros [Heq | []]. discriminate Heq.
Qed.

(** C9 as the specification words it fails for arguments that are supplied and
    falsy: an empty credential and the body [0] leave the request without
    [Authorization] header and without body. *)
Lemma request_config_falsy_arguments :
  let config := request_config None "/admin/settings/system" "POST"
                  (JNum (Dec 0 0)) (Some "") in
  Config.headers config !! "Authorization" = None
  /\ Config.data config = None
  /\ Config.headers config = ∅.
Proof. repeat split. Qed.

(** * Further properties of the session *)

Lemma num_gt_earlier (x : jsnum) (n n' : Z) :
  n <= n' -> num_gt x n' = true -> num_gt x n = true.
Proof.
  intros Hle. destruct x as [| | |[m e]]; cbn [num_gt mant expo]; try done.
  destruct (Z.leb_spec 0 e); rewrite !Z.ltb_lt; [lia|].
  assert (0 < 10 ^ (- e)) by (apply Z.pow_pos_nonneg; lia). nia.
Qed.

Section SessionMore.
Context {rt : JSRuntime}.

Lemma effect_loading (now : Z) (w : World) : loading (effect now w) = false.
Proof. reflexivity. Qed.

(** The five shapes in which the effects leave a world. *)
Lemma settle_cases (now : Z) (deps : option (option string)) (w : World) :
  settle now deps w = w
  \/ settle now deps w = setLoading false w
  \/ (exists t p, token w = Some t /\ decode t = Some p
                  /\ unexpired p now = Some true
                  /\ settle now deps w = setLoading false (setUser (user_of p) w))
  \/ settle now deps w
     = setLoading false (setToken None (on_browser (removeItem "token") w))
  \/ settle now deps w
     = setLoading false (setToken None (on_browser (removeItem "token")
         (on_browser (console_error [LogStr "Invalid token"]) w))).
Proof.
  destruct (decide (deps = Some (token w))) as [Hd|Hd].
  - left. subst deps. apply settle_same.
  - destruct (truthy_token (token w)) eqn:Htt.
    + destruct (token w) as [t|] eqn:Ht; [|discriminate].
      pose proof (proj1 (truthy_token_Some t) Htt) as Hne.
      rewrite <- Ht in Hd.
      destruct (decode t) as [p|] eqn:Hp.
      * destruct (unexpired p now) as [[|]|] eqn:Hu.
        -- right; right; left. exists t, p.
           rewrite (settle_accept now deps t p w Hd Ht Hp Hu). done.
        -- right; right; right; left.
           apply (settle_reject now deps t p w Hd Ht Hp Hu).
        -- right; right; right; right.
           apply (settle_catch now deps t w Hd Ht Hne). right; eauto.
      * right; right; right; right.
        apply (settle_catch now deps t w Hd Ht Hne). now left.
    + right; left. apply settle_absent; done.
Qed.

Lemma unexpired_earlier (p : jsval) (now now' : Z) :
  now <= now' -> unexpired p now' = Some true -> unexpired p now = Some true.
Proof.
  intros Hle. unfold unexpired.
  destruct (js_get p "exp") as [e|]; cbn; [|done].
  destruct (ToNumber e) as [x|]; cbn; [|done].
  intros [= Hgt]. rewrite (num_gt_earlier _ _ _ Hle Hgt). reflexivity.
Qed.

(** A page load that ends with a user has accepted the stored
    credential. *)
Lemma restore_user_inv (now : Z) (b : Browser) :
  truthy (user (restore now b)) = true ->
  exists c p, getItem "token" b = Some c /\ decode c = Some p
              /\ unexpired p now = Some true.
Proof.
  intros Hu.
  destruct (truthy_token (getItem "token" b)) eqn:Htt.
  - destruct (getItem "token" b) as [c|] eqn:Hs; [|discriminate].
    pose proof (proj1 (truthy_token_Some c) Htt) as Hne.
    destruct (decode c) as [p|] eqn:Hp.
    + destruct (unexpired p now) as [[|]|] eqn:Hx.
      * eauto.
      * rewrite (restore_reject _ _ _ _ Hs Hp Hx) in Hu. discriminate.
      * rewrite (restore_catch _ _ _ Hs Hne) in Hu by (right; eauto).
        discriminate.
    + rewrite (restore_catch _ _ _ Hs Hne) in Hu by now left. discriminate.
  - rewrite (restore_absent _ _ Htt) in Hu. discriminate.
Qed.

(** X1.  The effect loop ends: with fuel for two runs or more, from any
    world and any previous dependency, [run_effects] answers a world, the
    same for every such fuel; in that world the effect is not due again,
    and if it ran at all then loading is over. *)
Theorem effect_loop_quiescent (n : nat) (now : Z)
    (deps : option (option string)) (w : World) :
  exists w' : World,
    run_effects (S (S n)) now deps w = Some w'
    /\ run_effects 2 now deps w = Some w'
    /\ run_effects 0 now (Some (token w')) w' = Some w'
    /\ (deps <> Some (token w) -> loading w' = false).
Proof.
  exists (settle now deps w). repeat split.
  - apply run_effects_settle.
  - apply run_effects_settle.
  - cbn. rewrite decide_True; reflexivity.
  - intros Hd. unfold settle. rewrite decide_False by exact Hd. cbv zeta.
    destruct (decide (token (effect now w) = token w)); apply effect_loading.
Qed.

Lemma settle_frame (now : Z) (deps : option (option string)) (w : World)
    (k : string) :
  k <> "token" ->
  getItem k (browser (settle now deps w)) = getItem k (browser w)
  /\ alerts (browser (settle now deps w)) = alerts (browser w).
Proof.
  intros Hk.
  destruct (settle_cases now deps w)
    as [-> | [-> | [(t & p & _ & _ & _ & ->) | [-> | ->]]]]; cbn;
    (split; [|reflexivity]); try reflexivity;
    unfold getItem; cbn; rewrite lookup_delete_ne by congruence; reflexivity.
Qed.

(** X2.  Page load, [login] and [logout] read and write no item of
    [localStorage] but ['token'], and alert nothing. *)
Theorem session_touches_token_only (now : Z) (c : string) (u : jsval)
    (b : Browser) (w : World) :
  (forall k : string, k <> "token" ->
     getItem k (browser (restore now b)) = getItem k b
     /\ getItem k (browser (after now (login c u) w)) = getItem k (browser w)
     /\ getItem k (browser (after now logout w)) = getItem k (browser w))
  /\ alerts (browser (restore now b)) = alerts b
  /\ alerts (browser (after now (login c u) w)) = alerts (browser w)
  /\ alerts (browser (after now logout w)) = alerts (browser w).
Proof.
  split; [intros k Hk; split; [|split]|split; [|split]].
  - apply (settle_frame now None (mount b) k Hk).
  - unfold after. rewrite (proj1 (settle_frame now _ (login c u w) k Hk)).
    unfold getItem. cbn. rewrite lookup_insert_ne by congruence. reflexivity.
  - unfold after. rewrite (proj1 (settle_frame now _ (logout w) k Hk)).
    unfold getItem. cbn. rewrite lookup_delete_ne by congruence. reflexivity.
  - apply (settle_frame now None (mount b) "x"). discriminate.
  - unfold after. rewrite (proj2 (settle_frame now _ (login c u w) "x" ltac:(discriminate))).
    reflexivity.
  - unfold after. rewrite (proj2 (settle_frame now _ (logout w) "x" ltac:(discriminate))).
    reflexivity.
Qed.

(** X3.  Reloading the page at once changes nothing: a page load on the
    browser that a page load has left ends in the same world. *)
Theorem restore_reload_stable (now : Z) (b : Browser) :
  restore now (browser (restore now b)) = restore now b.
Proof.
  destruct (truthy_token (getItem "token" b)) eqn:Htt.
  - destruct (getItem "token" b) as [c|] eqn:Hs; [|discriminate].
    pose proof (proj1 (truthy_token_Some c) Htt) as Hne.
    assert (Hgone : forall b', truthy_token (getItem "token" (removeItem "token" b')) = false)
      by (intros b'; rewrite getItem_removeItem; reflexivity).
    destruct (decode c) as [p|] eqn:Hp.
    + destruct (unexpired p now) as [[|]|] eqn:Hx.
      * rewrite (restore_accept _ _ _ _ Hs Hp Hx). cbn.
        apply (restore_accept _ _ _ _ Hs Hp Hx).
      * rewrite (restore_reject _ _ _ _ Hs Hp Hx). cbn.
        rewrite restore_absent by apply Hgone.
        rewrite getItem_removeItem. reflexivity.
      * rewrite (restore_catch _ _ _ Hs Hne) by (right; eauto). cbn.
        rewrite restore_absent by apply Hgone.
        rewrite getItem_removeItem. reflexivity.
    + rewrite (restore_catch _ _ _ Hs Hne) by now left. cbn.
      rewrite restore_absent by apply Hgone.
      rewrite getItem_removeItem. reflexivity.
  - rewrite (restore_absent _ _ Htt). cbn. apply (restore_absent _ _ Htt).
Qed.

(** X4.  Expiry only moves one way: when a page load at some instant
    ends with a user, a page load of the same browser at any earlier
    instant ends in the same world. *)
Theorem restore_earlier_load (now now' : Z) (b : Browser) :
  now <= now' ->
  truthy (user (restore now' b)) = true ->
  restore now b = restore now' b.
Proof.
  intros Hle Hu.
  destruct (restore_user_inv _ _ Hu) as (c & p & Hs & Hp & Hx).
  rewrite (restore_accept _ _ _ _ Hs Hp Hx).
  apply (restore_accept _ _ _ _ Hs Hp (unexpired_earlier _ _ _ Hle Hx)).
Qed.

(** X5.  A page load ends with a user only when the stored credential
    decodes to an object that has an [exp] of its own whose number, times
    1000, exceeds the clock; the credential then stays stored and the user
    is read from the payload.  A payload that is no object, or has no
    [exp], never signs in. *)
Theorem restore_user_needs_exp (now : Z) (b : Browser) :
  truthy (user (restore now b)) = true ->
  exists (c : string) (props : list (string * jsval)) (e : jsval) (x : jsnum),
    getItem "token" b = Some c
    /\ decode c = Some (JObj props)
    /\ own_property "exp" props = Some e
    /\ ToNumber e = Some x
    /\ num_gt (num_mul x 1000) now = true
    /\ restore now b
       = {| browser := b; user := user_of (JObj props); token := Some c;
            loading := false |}.
Proof.
  intros Hu.
  destruct (restore_user_inv _ _ Hu) as (c & p & Hs & Hp & Hx).
  pose proof (restore_accept _ _ _ _ Hs Hp Hx) as Hw.
  unfold unexpired in Hx.
  destruct p as [| | | | | |props]; cbn in Hx; try discriminate.
  destruct (own_property "exp" props) as [e|] eqn:He; cbn in Hx;
    [|discriminate].
  destruct (ToNumber e) as [x|] eqn:Hn; cbn in Hx; [|discriminate].
  injection Hx as Hgt. exists c, props, e, x. done.
Qed.
End SessionMore.

Lemma restore_earlier_load_witness :
  restore sample_clock (browser_with admin_token)
  = restore (sample_clock + 3599999) (browser_with admin_token).
Proof.
  apply (restore_earlier_load sample_clock (sample_clock + 3599999)
           (browser_with admin_token)).
  - vm_compute. discriminate.
  - vm_compute. reflexivity.
Defined.

Lemma restore_user_needs_exp_witness :
  exists (c : string) (props : list (string * jsval)) (e : jsval) (x : jsnum),
    getItem "token" (browser_with admin_token) = Some c
    /\ decode c = Some (JObj props)
    /\ own_property "exp" props = Some e
    /\ ToNumber e = Some x
    /\ num_gt (num_mul x 1000) sample_clock = true
    /\ restore sample_clock (browser_with admin_token)
       = {| browser := browser_with admin_token; user := user_of (JObj props);
            token := Some c; loading := false |}.
Proof.
  apply (restore_user_needs_exp sample_clock (browser_with admin_token)).
  vm_compute. reflexivity.
Defined.

(** The same payload without [exp] is removed on page load. *)
Example restore_no_exp_token :
  restore sample_clock (browser_with no_exp_token)
  = {| browser := empty_browser; user := JNull; token := None; loading := false |}.
Proof. vm_compute. reflexivity. Qed.

Section Reloads.
Context {rt : JSRuntime}.

(** X6.  [logout] takes effect across a reload: from any world, after
    [logout] the next page load finds nothing to restore and renders the
    public storefront; so does the page at once when it was not loading. *)
Theorem logout_then_reload (now now' : Z) (w : World) :
  let w1 := after now logout w in
  restore now' (browser w1)
  = {| browser := removeItem "token" (browser w); user := JNull; token := None;
       loading := false |}
  /\ App (restore now' (browser w1)) = ViewPublicStore
  /\ (loading w = false -> App w1 = ViewPublicStore).
Proof.
  intros w1. subst w1.
  assert (Hb : browser (after now logout w) = removeItem "token" (browser w))
    by (rewrite after_logout; destruct (decide (token w = None)); reflexivity).
  assert (Hr : restore now' (browser (after now logout w))
               = {| browser := removeItem "token" (browser w); user := JNull;
                    token := None; loading := false |}).
  { rewrite Hb, restore_absent by (rewrite getItem_removeItem; reflexivity).
    rewrite getItem_removeItem. reflexivity. }
  split; [exact Hr|]. split; [rewrite Hr; reflexivity|].
  intros Hl. rewrite after_logout.
  destruct (decide (token w = None)); unfold App; cbn; rewrite ?Hl; reflexivity.
Qed.

(** X7.  [login] persists: after [login] with a new credential that the
    effect accepts, a page load while the credential is still unexpired
    ends in the very world that [login] has left. *)
Theorem login_then_reload (now now' : Z) (c : string) (u p : jsval) (w : World) :
  token w <> Some c ->
  decode c = Some p ->
  unexpired p now = Some true ->
  unexpired p now' = Some true ->
  restore now' (browser (after now (login c u) w)) = after now (login c u) w.
Proof.
  intros Hdiff Hp Hx Hx'.
  rewrite (proj1 (login_accepted now c u p w Hdiff Hp Hx)). cbn.
  apply (restore_accept now' _ c p); [apply getItem_setItem | exact Hp | exact Hx'].
Qed.

(** X8.  The [userData] handed to [login] does not survive an accepted
    credential: the effect replaces it by the id and user_type of the
    payload, so two logins that differ only in [userData] end in the same
    world. *)
Theorem login_user_data_discarded (now : Z) (c : string) (u u' p : jsval)
    (w : World) :
  token w <> Some c ->
  decode c = Some p ->
  unexpired p now = Some true ->
  after now (login c u) w = after now (login c u') w
  /\ user (after now (login c u) w)
     = JObj [("id", js_get_opt p "user_id"); ("user_type", js_get_opt p "user_type")].
Proof.
  intros Hdiff Hp Hx.
  rewrite (proj1 (login_accepted now c u p w Hdiff Hp Hx)),
    (proj1 (login_accepted now c u' p w Hdiff Hp Hx)).
  split; reflexivity.
Qed.

(** X9.  The session invariant holds, and loading is over, in every world
    reached from a page load by logouts and by logins with a new
    credential that the effect accepts. *)
Theorem reachable_invariant (w : World) :
  reachable w -> session_invariant w /\ loading w = false.
Proof.
  induction 1 as [now b | now w Hr IH | now c u p w Hr IH Hdiff Hp Hx].
  - split; [apply restore_invariant|].
    destruct (settle_cases now None (mount b))
      as [Hs | [Hs | [(t & q & _ & _ & _ & Hs) | [Hs | Hs]]]];
      unfold restore; rewrite Hs; try reflexivity.
    unfold restore, settle in Hs. rewrite decide_False in Hs by discriminate.
    cbv zeta in Hs. rewrite <- Hs.
    destruct (decide (token (effect now (mount b)) = token (mount b)));
      apply effect_loading.
  - split; [apply logout_invariant|]. rewrite after_logout.
    destruct (decide (token w = None)); cbn; [apply IH | reflexivity].
  - destruct (login_accepted now c u p w Hdiff Hp Hx) as [Hw Hinv].
    split; [exact Hinv|]. rewrite Hw. reflexivity.
Qed.

(** [App] never renders the bare configuration panel: the admin
    branch of [Dashboard] is taken only when [Dashboard] is rendered on
    its own, since [App] sends an admin to the panel with the navigation
    bar before [Dashboard] is asked. *)
Theorem App_never_bare_panel (w : World) (t : option string) :
  App w <> ViewAdminConfigPanel t
  /\ (strict_eq_str (js_get_opt (user w) "user_type") "admin" = true ->
      Dashboard w = ViewAdminConfigPanel (token w)).
Proof.
  split.
  - unfold App, renderAdminContent, Dashboard.
    destruct (loading w); [discriminate|].
    destruct (truthy (user w)); [|discriminate].
    destruct (strict_eq_str _ _); discriminate.
  - intros Ha. unfold Dashboard. rewrite Ha. reflexivity.
Qed.
End Reloads.

Lemma login_then_reload_witness :
  restore (sample_clock + 60000)
    (browser (after sample_clock (login admin_token JNull)
                (restore sample_clock empty_browser)))
  = after sample_clock (login admin_token JNull) (restore sample_clock empty_browser).
Proof.
  apply (login_then_reload sample_clock (sample_clock + 60000) admin_token JNull
           admin_claims (restore sample_clock empty_browser)).
  - vm_compute. discriminate.
  - vm_compute. reflexivity.
  - vm_compute. reflexivity.
  - vm_compute. reflexivity.
Defined.

Lemma login_user_data_discarded_witness :
  after sample_clock (login admin_token (JStr "anyone")) (restore sample_clock empty_browser)
  = after sample_clock (login admin_token JNull) (restore sample_clock empty_browser)
  /\ user (after sample_clock (login admin_token (JStr "anyone"))
             (restore sample_clock empty_browser))
     = admin_user.
Proof.
  apply (login_user_data_discarded sample_clock admin_token (JStr "anyone") JNull
           admin_claims (restore sample_clock empty_browser)).
  - vm_compute. discriminate.
  - vm_compute. reflexivity.
  - vm_compute. reflexivity.
Defined.

Lemma reachable_invariant_witness :
  session_invariant
    (after sample_clock logout
       (after sample_clock (login admin_token admin_user)
          (restore sample_clock empty_browser)))
  /\ loading
       (after sample_clock logout
          (after sample_clock (login admin_token admin_user)
             (restore sample_clock empty_browser)))
     = false.
Proof.
  apply reachable_invariant.
  apply reach_logout.
  apply (reach_login sample_clock admin_token admin_user admin_claims).
  - apply reach_load.
  - vm_compute. discriminate.
  - vm_compute. reflexivity.
  - vm_compute. reflexivity.
Defined.

(** * Further properties of decoding *)

Lemma split_no_separator (sep : ascii) (s : string) :
  ~ In sep (list_ascii_of_string s) -> split sep s = [s].
Proof.
  induction s as [|c s IH]; cbn [split list_ascii_of_string]; [reflexivity|].
  intros Hn.
  destruct (Ascii.eqb_spec c sep) as [->|Hc]; [exfalso; apply Hn; now left|].
  rewrite IH by (intros Hin; apply Hn; now right). reflexivity.
Qed.

Lemma split_first_segment (sep : ascii) (h rest : string) :
  ~ In sep (list_ascii_of_string h) ->
  split sep (h +:+ String sep rest) = h :: split sep rest.
Proof.
  induction h as [|c h IH]; intros Hn; simpl.
  - rewrite Ascii.eqb_refl. reflexivity.
  - destruct (Ascii.eqb_spec c sep) as [->|Hc]; [exfalso; apply Hn; now left|].
    rewrite IH by (intros Hin; apply Hn; now right). reflexivity.
Qed.

Lemma strip_padding_unfold (l : list ascii) :
  strip_padding l
  = match rev l with
    | a :: r =>
        if Ascii.eqb a "=" then
          match r with
          | a' :: r' => if Ascii.eqb a' "=" then rev r' else rev r
          | [] => rev r
          end
        else l
    | [] => l
    end.
Proof.
  unfold strip_padding. destruct (rev l) as [|a r]; [reflexivity|].
  destruct (Ascii.eqb_spec a "=") as [->|Ha].
  - destruct r as [|a' r']; [reflexivity|].
    destruct (Ascii.eqb_spec a' "=") as [->|Ha']; [reflexivity|].
    destruct a' as [[] [] [] [] [] [] [] []]; try reflexivity.
    exfalso; apply Ha'; reflexivity.
  - destruct a as [[] [] [] [] [] [] [] []]; try reflexivity.
    exfalso; apply Ha; reflexivity.
Qed.

(** Removing the padding removes nothing but [=]. *)
Lemma strip_padding_keeps (c : ascii) (l : list ascii) :
  c <> "="%char -> In c l -> In c (strip_padding l).
Proof.
  intros Hc Hin. rewrite strip_padding_unfold.
  assert (Hrev : In c (rev l)) by (apply in_rev; rewrite rev_involutive; exact Hin).
  destruct (rev l) as [|a r]; [exact Hin|].
  destruct (Ascii.eqb_spec a "=") as [->|Ha]; [|exact Hin].
  destruct Hrev as [Heq|Hr]; [congruence|].
  destruct r as [|a' r']; [destruct Hr|].
  destruct (Ascii.eqb_spec a' "=") as [->|Ha'].
  - destruct Hr as [Heq|Hr]; [congruence|]. apply in_rev in Hr. exact Hr.
  - apply in_rev in Hr. exact Hr.
Qed.

(** One character outside the alphabet, other than white space and
    padding, makes [atob] fail. *)
Lemma atob_invalid_character (c : ascii) (data : string) :
  In c (list_ascii_of_string data) ->
  is_ascii_whitespace c = false -> c <> "="%char -> b64_value c = None ->
  atob data = None.
Proof.
  intros Hin Hws Hpad Hval. unfold atob.
  set (d0 := filter _ (list_ascii_of_string data)).
  assert (H0 : In c d0).
  { apply list_elem_of_In, list_elem_of_filter. split; [exact Hws|].
    apply list_elem_of_In. exact Hin. }
  set (d := if (length d0 mod 4 =? 0)%nat then strip_padding d0 else d0).
  assert (Hd : In c d).
  { subst d. destruct (length d0 mod 4 =? 0)%nat; [|exact H0].
    apply strip_padding_keeps; assumption. }
  destruct (length d mod 4 =? 1)%nat; [reflexivity|].
  rewrite (mapM_None_2 b64_value d); [reflexivity|].
  apply Exists_exists. exists c. split; [apply list_elem_of_In; exact Hd|exact Hval].
Qed.

Section Decoding.
Context {rt : JSRuntime}.

(** X10.  A credential whose second segment holds [-] or [_], the two
    characters that base64url puts in place of [+] and [/], cannot be
    decoded, whatever the engine: a page load removes it from
    [localStorage], writes one line to the console and ends without
    user. *)
Theorem decode_rejects_base64url (t seg : string) (c : ascii) :
  split "." t !! 1%nat = Some seg ->
  In c (list_ascii_of_string seg) ->
  c = "-"%char \/ c = "_"%char ->
  decode t = None
  /\ forall (now : Z) (b : Browser),
       getItem "token" b = Some t ->
       restore now b
       = {| browser := removeItem "token" (console_error [LogStr "Invalid token"] b);
            user := JNull; token := None; loading := false |}.
Proof.
  intros Hseg Hin Hc.
  assert (Hd : decode t = None).
  { unfold decode. rewrite Hseg.
    change (default "undefined" (Some seg)) with seg.
    rewrite (atob_invalid_character c seg Hin); [reflexivity| | |];
      destruct Hc as [-> | ->]; done. }
  split; [exact Hd|]. intros now b Hs.
  apply (restore_catch now b t Hs); [|now left].
  intros ->. discriminate Hseg.
Qed.

(** X11.  Only the text between the first and the second dot is read:
    for a header and a payload segment without dots, the credential
    decodes to what the payload segment holds whether no signature
    follows or any text at all, further dots included. *)
Theorem decode_signature_unread (h seg rest : string) :
  ~ In "."%char (list_ascii_of_string h) ->
  ~ In "."%char (list_ascii_of_string seg) ->
  decode (h +:+ "." +:+ seg) = atob seg ≫= JSON_parse
  /\ decode (h +:+ "." +:+ seg +:+ "." +:+ rest) = atob seg ≫= JSON_parse.
Proof.
  intros Hh Hseg. unfold decode. split.
  - change ("." +:+ seg) with (String "." seg).
    rewrite (split_first_segment "." h seg Hh), (split_no_separator "." seg Hseg).
    reflexivity.
  - change ("." +:+ seg +:+ "." +:+ rest) with (String "." (seg +:+ String "." rest)).
    rewrite (split_first_segment "." h _ Hh), (split_first_segment "." seg rest Hseg).
    reflexivity.
Qed.
End Decoding.

Lemma decode_rejects_base64url_witness :
  decode base64url_token = None
  /\ forall (now : Z) (b : Browser),
       getItem "token" b = Some base64url_token ->
       restore now b
       = {| browser := removeItem "token" (console_error [LogStr "Invalid token"] b);
            user := JNull; token := None; loading := false |}.
Proof.
  apply (decode_rejects_base64url base64url_token
           "eyJ1c2VyX2lkIjoiPz8-IiwidXNlcl90eXBlIjoiYWRtaW4iLCJleHAiOjE3MDAwMDM2MDB9"
           "-"%char).
  - reflexivity.
  - vm_compute. tauto.
  - now left.
Defined.

Lemma decode_signature_unread_witness :
  decode ("e30" +:+ "." +:+ "eyJ1c2VyX2lkIjoidS0xIiwidXNlcl90eXBlIjoiYWRtaW4iLCJleHAiOjE3MDAwMDM2MDB9")
  = atob "eyJ1c2VyX2lkIjoidS0xIiwidXNlcl90eXBlIjoiYWRtaW4iLCJleHAiOjE3MDAwMDM2MDB9"
      ≫= JSON_parse
  /\ decode ("e30" +:+ "."
             +:+ "eyJ1c2VyX2lkIjoidS0xIiwidXNlcl90eXBlIjoiYWRtaW4iLCJleHAiOjE3MDAwMDM2MDB9"
             +:+ "." +:+ "forged.or.missing")
     = atob "eyJ1c2VyX2lkIjoidS0xIiwidXNlcl90eXBlIjoiYWRtaW4iLCJleHAiOjE3MDAwMDM2MDB9"
         ≫= JSON_parse.
Proof.
  apply (decode_signature_unread "e30"
           "eyJ1c2VyX2lkIjoidS0xIiwidXNlcl90eXBlIjoiYWRtaW4iLCJleHAiOjE3MDAwMDM2MDB9"
           "forged.or.missing").
  - vm_compute. intuition discriminate.
  - vm_compute. intuition discriminate.
Defined.

(** In standard base64 the payload of [base64url_token] would decode. *)
Example base64_twin_decodes :
  decode "e30.eyJ1c2VyX2lkIjoiPz8+IiwidXNlcl90eXBlIjoiYWRtaW4iLCJleHAiOjE3MDAwMDM2MDB9.c2ln"
  = Some (JObj [("user_id", JStr "??>"); ("user_type", JStr "admin");
                ("exp", JNum (Dec 1700003600 0))]).
Proof. vm_compute. reflexivity. Qed.

(** * Further properties of the settings screens *)

Lemma own_property_set_same (k : string) (v : jsval) (l : list (string * jsval)) :
  own_property k (Reference.set_property k v l) = Some v.
Proof.
  induction l as [|[k' v'] l IH]; cbn.
  - rewrite String.eqb_refl. reflexivity.
  - destruct (String.eqb_spec k k') as [->|Hk]; cbn.
    + rewrite String.eqb_refl. reflexivity.
    + destruct (String.eqb_spec k k'); [contradiction|exact IH].
Qed.

Lemma own_property_set_other (k k' : string) (v : jsval)
    (l : list (string * jsval)) :
  k' <> k ->
  own_property k' (Reference.set_property k v l) = own_property k' l.
Proof.
  intros Hne. induction l as [|[k0 v0] l IH]; cbn.
  - destruct (String.eqb_spec k' k); [contradiction|reflexivity].
  - destruct (String.eqb_spec k k0) as [->|Hk]; cbn.
    + destruct (String.eqb_spec k' k0); [contradiction|reflexivity].
    + destruct (String.eqb_spec k' k0); [reflexivity|exact IH].
Qed.

Lemma set_property_twice (k : string) (v v' : jsval) (l : list (string * jsval)) :
  Reference.set_property k v' (Reference.set_property k v l)
  = Reference.set_property k v' l.
Proof.
  induction l as [|[k0 v0] l IH]; cbn.
  - rewrite String.eqb_refl. reflexivity.
  - destruct (String.eqb_spec k k0) as [->|Hk]; cbn.
    + rewrite String.eqb_refl. reflexivity.
    + destruct (String.eqb_spec k k0); [contradiction|]. rewrite IH. reflexivity.
Qed.

(** X12.  After an edit the edited field reads back as typed, every other
    field of an object buffer reads as before, the flags are untouched,
    and the buffer is an object: the form renders, whatever the buffer was
    before. *)
Theorem handleInputChange_read_back (field value key : string) (s : Screen)
    (t : tab) :
  let s' := handleInputChange field value s in
  field_value field s' = Some (JStr value)
  /\ js_get (settings s') field = Some (JStr value)
  /\ (key <> field ->
      forall props, settings s = JObj props ->
      js_get (settings s') key = js_get (settings s) key)
  /\ screen_loading s' = screen_loading s /\ saving s' = saving s
  /\ is_Some (render_tab t s').
Proof.
  intros s'. subst s'. unfold handleInputChange, field_value. cbn.
  rewrite own_property_set_same. cbn. repeat split.
  - unfold js_or. cbn. destruct (String.eqb_spec value "") as [->|]; reflexivity.
  - intros Hne props Hp. rewrite Hp. cbn.
    rewrite own_property_set_other by exact Hne. reflexivity.
  - unfold render_tab. cbn. destruct (screen_loading s); [eauto|].
    match goal with
    | |- is_Some (?m ≫= _) => assert (Hm : is_Some m)
    end.
    { apply mapM_is_Some_2, Forall_forall. intros k _.
      unfold field_value. cbn. eauto. }
    destruct Hm as [values ->]. cbn. eauto.
Qed.

(** X13.  Edits compose as assignments do: of two edits of one field the
    later one wins, and edits of different fields can be made in either
    order without any field reading differently. *)
Theorem handleInputChange_compose (f g v1 v2 key : string) (s : Screen) :
  handleInputChange f v2 (handleInputChange f v1 s) = handleInputChange f v2 s
  /\ (f <> g ->
      js_get (settings (handleInputChange f v1 (handleInputChange g v2 s))) key
      = js_get (settings (handleInputChange g v2 (handleInputChange f v1 s))) key).
Proof.
  split.
  - unfold handleInputChange, setSettings. cbn. rewrite set_property_twice.
    reflexivity.
  - intros Hne. unfold handleInputChange. cbn. f_equal. f_equal.
    destruct (String.eqb_spec key f) as [->|Hf].
    + rewrite own_property_set_same, own_property_set_other by exact Hne.
      rewrite own_property_set_same. reflexivity.
    + rewrite (own_property_set_other f key) by exact Hf.
      destruct (String.eqb_spec key g) as [->|Hg].
      * rewrite !own_property_set_same. reflexivity.
      * rewrite !(own_property_set_other g key) by exact Hg.
        rewrite (own_property_set_other f key) by exact Hf. reflexivity.
Qed.

Section Screens.
Variable BACKEND_URL : option string.

(** X14.  Loading the settings ends the spinner whatever the answer,
    never alerts and never touches [localStorage] or the saving flag.  A
    resolved request makes the body of the answer the edit buffer as it
    is; a rejected one keeps the buffer and writes two lines to the
    console.  The request is a GET without body. *)
Theorem fetchSettings_outcome (t : tab) (token : option string)
    (axios : Config.t -> outcome) (s : Screen) (b : Browser) :
  let config := request_config BACKEND_URL (settings_endpoint t) "GET" JNull token in
  let s' := fst (fetchSettings BACKEND_URL t token axios s b) in
  let b' := snd (fetchSettings BACKEND_URL t token axios s b) in
  Config.data config = None /\ Config.method config = "GET"
  /\ screen_loading s' = false /\ saving s' = saving s
  /\ alerts b' = alerts b /\ localStorage b' = localStorage b
  /\ match axios config with
     | Resolved r => settings s' = Response.data r /\ console b' = console b
     | Rejected e =>
         settings s' = settings s
         /\ console b'
            = (console b
               ++ [[LogStr "API Error:";
                    LogVal (js_or (response_data e) (JStr (message e)))];
                   [LogStr (fetch_error_label t); LogThrown (rethrown e)]])%list
     end.
Proof.
  intros config s' b'. subst config s' b'. unfold fetchSettings, apiCall.
  destruct (axios _) as [r|e]; cbn; rewrite <- ?app_assoc; repeat split.
Qed.

(** X15.  A settings request answered with [null] leaves a buffer that
    the form cannot read: rendering the tab throws. *)
Theorem fetched_null_breaks_form (t : tab) (token : option string)
    (axios : Config.t -> outcome) (s : Screen) (b : Browser) (r : Response.t) :
  axios (request_config BACKEND_URL (settings_endpoint t) "GET" JNull token)
  = Resolved r ->
  Response.data r = JNull ->
  let s' := fst (fetchSettings BACKEND_URL t token axios s b) in
  settings s' = JNull /\ screen_loading s' = false /\ render_tab t s' = None.
Proof.
  intros Hax Hnull s'. subst s'. unfold fetchSettings, apiCall.
  rewrite Hax. cbn. rewrite Hnull. repeat split. destruct t; reflexivity.
Qed.

(** X16.  When the first load of a tab fails, the form comes up empty,
    and a save then sends the empty object.  The save asks the network
    about one request only, the POST of the tab's endpoint with [{}] as
    its body, and does what the answer to that request calls for: the
    success alert for a resolved request; two console lines and the
    failure alert for a rejected one.  The screen is the same afterwards. *)
Theorem save_after_failed_fetch (t : tab) (token : option string)
    (axios : Config.t -> outcome) (b : Browser) (e : AxiosError) :
  axios (request_config BACKEND_URL (settings_endpoint t) "GET" JNull token)
  = Rejected e ->
  let s1 := fst (fetchSettings BACKEND_URL t token axios initial_screen b) in
  let config := request_config BACKEND_URL (settings_endpoint t) "POST" (JObj []) token in
  render_tab t s1 = Some (ScreenForm [JStr ""; JStr ""] false)
  /\ Config.method config = "POST"
  /\ Config.url config = API BACKEND_URL +:+ settings_endpoint t
  /\ Config.data config = Some (JObj [])
  /\ forall (axios1 : Config.t -> outcome) (b1 : Browser),
       handleSaveSettings BACKEND_URL t token axios1 s1 b1
       = (s1,
          match axios1 config with
          | Resolved _ => alert (saved_text t) b1
          | Rejected e1 =>
              alert "Error saving settings"
                (console_error [LogStr (save_error_label t); LogThrown (rethrown e1)]
                   (console_error
                      [LogStr "API Error:";
                       LogVal (js_or (response_data e1) (JStr (message e1)))] b1))
          end).
Proof.
  intros Hax s1 config. subst s1 config.
  unfold fetchSettings, apiCall. rewrite Hax. cbn.
  split; [destruct t; reflexivity|]. repeat (split; [reflexivity|]).
  intros axios1 b1. unfold handleSaveSettings, apiCall. cbn.
  destruct (axios1 _); reflexivity.
Qed.

(** X17.  A save alerts exactly once, with the success text exactly when
    the request resolved; in either case the buffer is kept, the button
    is enabled again and [localStorage] is untouched.  A resolved save
    writes nothing to the console. *)
Theorem handleSaveSettings_any_outcome (t : tab) (token : option string)
    (axios : Config.t -> outcome) (s : Screen) (b : Browser) :
  let config := request_config BACKEND_URL (settings_endpoint t) "POST" (settings s) token in
  let s' := fst (handleSaveSettings BACKEND_URL t token axios s b) in
  let b' := snd (handleSaveSettings BACKEND_URL t token axios s b) in
  settings s' = settings s /\ save_enabled s' = true
  /\ screen_loading s' = screen_loading s
  /\ localStorage b' = localStorage b
  /\ match axios config with
     | Resolved _ =>
         alerts b' = (alerts b ++ [saved_text t])%list /\ console b' = console b
     | Rejected _ => alerts b' = (alerts b ++ ["Error saving settings"])%list
     end.
Proof.
  intros config s' b'. subst config s' b'. unfold handleSaveSettings, apiCall.
  cbn [settings setSaving]. destruct (axios _) as [r|e]; cbn; repeat split.
Qed.
End Screens.

Lemma fetched_null_breaks_form_witness :
  let s' := fst (fetchSettings None Marketing (Some admin_token)
                   (fun _ => Resolved {| Response.status := 200; Response.data := JNull |})
                   initial_screen empty_browser) in
  settings s' = JNull /\ screen_loading s' = false /\ render_tab Marketing s' = None.
Proof.
  exact (fetched_null_breaks_form None Marketing (Some admin_token)
           (fun _ => Resolved {| Response.status := 200; Response.data := JNull |})
           initial_screen empty_browser
           {| Response.status := 200; Response.data := JNull |} eq_refl eq_refl).
Defined.

Lemma save_after_failed_fetch_witness :
  let s1 := fst (fetchSettings None System (Some admin_token)
                   (fun _ => Rejected network_error) initial_screen empty_browser) in
  let config := request_config None (settings_endpoint System) "POST" (JObj [])
                  (Some admin_token) in
  render_tab System s1 = Some (ScreenForm [JStr ""; JStr ""] false)
  /\ Config.method config = "POST"
  /\ Config.url config = API None +:+ settings_endpoint System
  /\ Config.data config = Some (JObj [])
  /\ forall (axios1 : Config.t -> outcome) (b1 : Browser),
       handleSaveSettings None System (Some admin_token) axios1 s1 b1
       = (s1,
          match axios1 config with
          | Resolved _ => alert (saved_text System) b1
          | Rejected e1 =>
              alert "Error saving settings"
                (console_error [LogStr (save_error_label System); LogThrown (rethrown e1)]
                   (console_error
                      [LogStr "API Error:";
                       LogVal (js_or (response_data e1) (JStr (message e1)))] b1))
          end).
Proof.
  exact (save_after_failed_fetch None System (Some admin_token)
           (fun _ => Rejected network_error) empty_browser network_error eq_refl).
Defined.

(** * Further properties of the sign-in form *)

Section SignIn.
Context {rt : JSRuntime}.
Variable BACKEND_URL : option string.

Lemma restore_token_item (now : Z) (b : Browser) :
  getItem "token" (browser (restore now b)) = getItem "token" b
  \/ getItem "token" (browser (restore now b)) = None.
Proof.
  unfold restore.
  destruct (settle_cases now None (mount b))
    as [-> | [-> | [(t & p & _ & _ & _ & ->) | [-> | ->]]]]; cbn;
    try (now left); right; apply lookup_delete_eq.
Qed.

(** X18.  Signing in stores nothing.  Whatever the server answers,
    [handleSubmit] adds no item to [localStorage] and changes none but
    ['token'], which a reload may only remove; it alerts nothing.  When no
    credential was stored, the page that a successful sign-in reloads has
    no user and renders the public storefront again. *)
Theorem handleSubmit_stores_nothing (now : Z) (axios : Config.t -> outcome)
    (s : LoginModal.state) (b : Browser) :
  let r := handleSubmit BACKEND_URL now axios s b in
  (forall k : string, k <> "token" ->
     getItem k (LoginModal.page_browser r) = getItem k b)
  /\ (getItem "token" (LoginModal.page_browser r) = getItem "token" b
      \/ getItem "token" (LoginModal.page_browser r) = None)
  /\ alerts (LoginModal.page_browser r) = alerts b
  /\ (truthy_token (getItem "token" b) = false ->
      forall w : World, r = LoginModal.Reloaded w ->
      user w = JNull /\ App w = ViewPublicStore).
Proof.
  intros r. subst r. unfold handleSubmit, apiCall.
  destruct (axios _) as [resp|e].
  - destruct (js_get (Response.data resp) "access_token");
      [destruct (js_get (Response.data resp) "user")|]; cbn.
    + split; [intros k Hk; apply (settle_frame now None (mount b) k Hk)|].
      split; [apply restore_token_item|].
      split; [apply (settle_frame now None (mount b) "x"); discriminate|].
      intros Htt w' Hw. injection Hw as Hw. subst w'.
      rewrite (restore_absent _ _ Htt). split; reflexivity.
    + split; [reflexivity|]. split; [now left|]. split; [reflexivity|].
      intros _ w' Hw. discriminate Hw.
    + split; [reflexivity|]. split; [now left|]. split; [reflexivity|].
      intros _ w' Hw. discriminate Hw.
  - cbn. split; [reflexivity|]. split; [now left|]. split; [reflexivity|].
    intros _ w' Hw. discriminate Hw.
Qed.

(** An array with an object in it is no child for React. *)
Lemma valid_child_array (items : list jsval) :
  Exists (fun x => exists props, x = JObj props) items ->
  LoginModal.valid_child (JArr items) = false.
Proof.
  intros Hex. induction Hex as [x l (props & ->) | x l _ IH].
  - reflexivity.
  - cbn in IH |- *. rewrite IH. apply andb_false_r.
Qed.

(** X19.  A rejected sign-in reloads nothing and leaves the modal with
    what was typed, its loading state ended and an error that is never
    falsy: the [detail] of the response body when that is truthy, and
    ['Login failed'] otherwise.  When the error is a string it is the text
    of the error line.  When it is an object, or an array with an object
    in it, rendering the error line throws.  The request carries the
    credentials as its body and no [Authorization] header. *)
Theorem handleSubmit_rejected (now : Z) (axios : Config.t -> outcome)
    (s : LoginModal.state) (b : Browser) (e : AxiosError) :
  let config :=
    request_config BACKEND_URL "/auth/login" "POST" (LoginModal.credentials s) None in
  axios config = Rejected e ->
  exists (s' : LoginModal.state) (b' : Browser),
    handleSubmit BACKEND_URL now axios s b = LoginModal.Stayed s' b'
    /\ LoginModal.email s' = LoginModal.email s
    /\ LoginModal.password s' = LoginModal.password s
    /\ LoginModal.loading s' = false
    /\ LoginModal.error s'
       = js_or (js_get_opt (response_data e) "detail") (JStr "Login failed")
    /\ truthy (LoginModal.error s') = true
    /\ LoginModal.error_line s'
       = (if LoginModal.valid_child (LoginModal.error s')
          then Some (LoginModal.Line (LoginModal.error s')) else None)
    /\ (forall text : string,
          LoginModal.error s' = JStr text ->
          LoginModal.error_line s' = Some (LoginModal.Line (JStr text)))
    /\ (forall props : list (string * jsval),
          js_get_opt (response_data e) "detail" = JObj props ->
          LoginModal.error_line s' = None)
    /\ (forall items : list jsval,
          js_get_opt (response_data e) "detail" = JArr items ->
          Exists (fun x => exists props, x = JObj props) items ->
          LoginModal.error_line s' = None)
    /\ localStorage b' = localStorage b
    /\ Config.headers config !! "Authorization" = None
    /\ Config.data config = Some (LoginModal.credentials s).
Proof.
  intros config Hax. subst config. unfold handleSubmit, apiCall. rewrite Hax.
  eexists _, _. split; [reflexivity|]. cbn.
  assert (Hd : LoginModal.detail (rethrown e) = js_get_opt (response_data e) "detail").
  { unfold rethrown. destruct (response_data e) as [| |[]|d|str|items|props] eqn:Hr;
      cbn; try reflexivity.
    - destruct (negb (mant d =? 0)); reflexivity.
    - destruct (negb (String.eqb str "")); reflexivity. }
  rewrite Hd.
  assert (Ht : truthy (js_or (js_get_opt (response_data e) "detail") (JStr "Login failed"))
               = true).
  { unfold js_or.
    destruct (truthy (js_get_opt (response_data e) "detail")) eqn:Ht; [exact Ht|reflexivity]. }
  assert (Hline : forall st : LoginModal.state,
            truthy (LoginModal.error st) = true ->
            LoginModal.error_line st
            = if LoginModal.valid_child (LoginModal.error st)
              then Some (LoginModal.Line (LoginModal.error st)) else None).
  { intros st H. unfold LoginModal.error_line. rewrite H. reflexivity. }
  do 4 (split; [reflexivity|]). split; [exact Ht|].
  split; [apply Hline; exact Ht|].
  split; [intros text Htext; rewrite Hline by exact Ht; cbn in *; rewrite Htext;
          reflexivity|].
  split; [intros props Hp; rewrite Hline by exact Ht; cbn; rewrite Hp; reflexivity|].
  split; [|repeat split].
  intros items Hi Hex. rewrite Hline by exact Ht.
  cbn [LoginModal.error LoginModal.failed]. unfold js_or. rewrite Hi. cbn [truthy].
  rewrite (valid_child_array items Hex). reflexivity.
Qed.
End SignIn.

Lemma handleSubmit_rejected_witness :
  let s0 := {| LoginModal.email := "a@b.c"; LoginModal.password := "wrong";
               LoginModal.error := JStr ""; LoginModal.loading := false |} in
  let config :=
    request_config None "/auth/login" "POST" (LoginModal.credentials s0) None in
  exists (s' : LoginModal.state) (b' : Browser),
    handleSubmit None sample_clock (fun _ => Rejected login_refused) s0 empty_browser
    = LoginModal.Stayed s' b'
    /\ LoginModal.email s' = "a@b.c"
    /\ LoginModal.password s' = "wrong"
    /\ LoginModal.loading s' = false
    /\ LoginModal.error s' = JStr "Incorrect email or password"
    /\ truthy (LoginModal.error s') = true
    /\ LoginModal.error_line s'
       = (if LoginModal.valid_child (LoginModal.error s')
          then Some (LoginModal.Line (LoginModal.error s')) else None)
    /\ (forall text : string,
          LoginModal.error s' = JStr text ->
          LoginModal.error_line s' = Some (LoginModal.Line (JStr text)))
    /\ (forall props : list (string * jsval),
          JStr "Incorrect email or password" = JObj props ->
          LoginModal.error_line s' = None)
    /\ (forall items : list jsval,
          JStr "Incorrect email or password" = JArr items ->
          Exists (fun x => exists props, x = JObj props) items ->
          LoginModal.error_line s' = None)
    /\ localStorage b' = ∅
    /\ Config.headers config !! "Authorization" = None
    /\ Config.data config = Some (LoginModal.credentials s0).
Proof.
  exact (handleSubmit_rejected None sample_clock (fun _ => Rejected login_refused)
           {| LoginModal.email := "a@b.c"; LoginModal.password := "wrong";
              LoginModal.error := JStr ""; LoginModal.loading := false |}
           empty_browser login_refused eq_refl).
Defined.

(** A sign-in that the server does not validate: the error is the list of
    validation objects, and the modal cannot be rendered with it. *)
Example unprocessable_sign_in_breaks_modal :
  exists (s' : LoginModal.state) (b' : Browser),
    handleSubmit None sample_clock (fun _ => Rejected login_unprocessable)
      LoginModal.initial empty_browser
    = LoginModal.Stayed s' b'
    /\ LoginModal.error_line s' = None.
Proof. eexists _, _. split; [reflexivity|]. reflexivity. Qed.

(** A server that accepts the sign-in and sends a valid admin credential:
    the page reloads with nothing stored and shows the public storefront. *)
Example accepted_sign_in_is_not_kept :
  handleSubmit None sample_clock
    (fun _ => Resolved {| Response.status := 200;
                          Response.data := JObj [("access_token", JStr admin_token);
                                                 ("user", admin_user)] |})
    {| LoginModal.email := "admin@shop.test"; LoginModal.password := "right";
       LoginModal.error := JStr ""; LoginModal.loading := false |} empty_browser
  = LoginModal.Reloaded
      {| browser := empty_browser; user := JNull; token := None; loading := false |}.
Proof. vm_compute. reflexivity. Qed.

(** * [AdminConfigPanel] *)

(** The panel mounts on the grid, where five of the seven tiles leave it.
    The Marketing and the System tile select a tab, whose hooks the first
    render did not call: the render after the click throws, and neither
    tab comes on screen.  The back button leads to the grid from a page
    with as many hooks as the grid. *)
Example tiles_that_open_a_page :
  selected_page initial_page = PageTiles
  /\ map (fun id => AdminConfigPanel initial_page (handleTileClick id initial_page))
       adminTiles
     = [Some PageTiles; Some PageTiles; Some PageTiles; Some PageTiles; None;
        Some PageTiles; None]
  /\ forall page : string,
       AdminConfigPanel page (handleBackToMain page)
       = if Nat.eqb (hooks_called page) 2 then Some PageTiles else None.
Proof. repeat split. Qed.
